(** * FarMart log extractor: a shallow embedding of [src/extract_logs.py]

    The development follows the three methods of [LogExtractor] that carry
    the algorithm: [_get_line_at_position] (lines 66-78),
    [_binary_search_date] (lines 80-103) and the body of [extract_logs]
    that runs once the log file is mapped (lines 114-146).

    Conventions.
    - The mapped file [mm] is a [list byte]; offsets are Python integers,
      hence [Z]; [mm[a:b]] is [slice] with Python's index adjustment.
    - A Python [str] is the list of its code points.
    - A call either returns or raises: [result].
    - Every [while] loop is a [Fixpoint] on a counter that is initialised
      with the loop's variant; for each loop a lemma shows that the
      counter never runs out before the loop condition turns false. *)

From Stdlib Require Import ZArith Lia.
From Stdlib.Strings Require Import Byte String.
From stdpp Require Import base decidable option list gmap.

Local Open Scope Z_scope.

(** ** Exceptions and results *)

Inductive exn : Type :=
  | TypeError
  | UnicodeDecodeError
  | UnicodeEncodeError.

Inductive result (A : Type) : Type :=
  | Ok (a : A)
  | Raise (e : exn).
Arguments Ok {A} a.
Arguments Raise {A} e.

#[global] Instance result_ret : MRet result := fun A a => Ok a.

#[global] Instance result_bind : MBind result := fun A B k r =>
  match r with
  | Ok a => k a
  | Raise e => Raise e
  end.

(** [try: body except: handler] with a bare [except]. *)
Definition try_except {A} (body : result A) (handler : A) : A :=
  match body with
  | Ok a => a
  | Raise _ => handler
  end.

#[global] Instance exn_eq_dec : EqDecision exn.
Proof. solve_decision. Defined.

(** ** Bytes, strings and slices *)

#[global] Instance byte_eq_dec : EqDecision byte := Byte.byte_eq_dec.

Definition u8 (b : byte) : Z := Z.of_N (Byte.to_N b).

Definition byte_of_Z (z : Z) : byte :=
  match Byte.of_N (Z.to_N z) with
  | Some b => b
  | None => "000"%byte
  end.

(** The line terminator [b'\n']. *)
Definition NL : byte := "010"%byte.

(** A Python [str]: its code points. *)
Definition str : Type := list Z.

Definition len {A} (l : list A) : Z := Z.of_nat (length l).

(** Index adjustment of a slice bound against a sequence of length [n]. *)
Definition adjust (n i : Z) : Z :=
  if i <? 0 then Z.max (i + n) 0 else Z.min i n.

(** [l[a:b]] *)
Definition slice {A} (l : list A) (a b : Z) : list A :=
  let a' := adjust (len l) a in
  let b' := adjust (len l) b in
  take (Z.to_nat (b' - a')) (drop (Z.to_nat a') l).

(** [s == t] and [s < t] on [str]: code point by code point. *)
Definition str_eqb (s t : str) : bool := bool_decide (s = t).

Fixpoint str_ltb (s t : str) : bool :=
  match s, t with
  | _, [] => false
  | [], _ :: _ => true
  | x :: s', y :: t' =>
      if x <? y then true else if x =? y then str_ltb s' t' else false
  end.

(** [s.startswith(t)] *)
Fixpoint startswith (s t : str) {struct t} : bool :=
  match t, s with
  | [], _ => true
  | _ :: _, [] => false
  | y :: t', x :: s' => (x =? y) && startswith s' t'
  end.

(** ** The UTF-8 codec ([bytes.decode('utf-8')], [str.encode('utf-8')])

    Strict decoding: only the well-formed byte sequences of the Unicode
    standard (no overlong forms, no surrogates, nothing above U+10FFFF). *)

Module Utf8.

Definition between (lo hi : Z) (b : byte) : bool :=
  (lo <=? u8 b) && (u8 b <=? hi).

Definition cont (b : byte) : bool := between 128 191 b.

(** Lower and upper bound of the second byte, given the leading byte. *)
Definition second_lo (x0 : Z) : Z :=
  if x0 =? 224 then 160 else if x0 =? 240 then 144 else 128.
Definition second_hi (x0 : Z) : Z :=
  if x0 =? 237 then 159 else if x0 =? 244 then 143 else 191.

Fixpoint decode (bs : list byte) : option str :=
  match bs with
  | [] => Some []
  | b0 :: r0 =>
      let x0 := u8 b0 in
      if x0 <? 128 then cons x0 <$> decode r0
      else if between 194 223 b0 then
        match r0 with
        | b1 :: r1 =>
            if cont b1
            then cons ((x0 - 192) * 64 + (u8 b1 - 128)) <$> decode r1
            else None
        | _ => None
        end
      else if between 224 239 b0 then
        match r0 with
        | b1 :: b2 :: r2 =>
            if between (second_lo x0) (second_hi x0) b1 && cont b2
            then cons ((x0 - 224) * 4096 + (u8 b1 - 128) * 64 + (u8 b2 - 128))
                   <$> decode r2
            else None
        | _ => None
        end
      else if between 240 244 b0 then
        match r0 with
        | b1 :: b2 :: b3 :: r3 =>
            if between (second_lo x0) (second_hi x0) b1 && cont b2 && cont b3
            then cons ((x0 - 240) * 262144 + (u8 b1 - 128) * 4096
                       + (u8 b2 - 128) * 64 + (u8 b3 - 128))
                   <$> decode r3
            else None
        | _ => None
        end
      else None
  end.

Definition encode_cp (c : Z) : option (list byte) :=
  if c <? 0 then None
  else if c <? 128 then Some [byte_of_Z c]
  else if c <? 2048 then
    Some [byte_of_Z (192 + c / 64); byte_of_Z (128 + c mod 64)]
  else if c <? 65536 then
    if (55296 <=? c) && (c <=? 57343) then None
    else Some [byte_of_Z (224 + c / 4096);
               byte_of_Z (128 + (c / 64) mod 64);
               byte_of_Z (128 + c mod 64)]
  else if c <? 1114112 then
    Some [byte_of_Z (240 + c / 262144);
          byte_of_Z (128 + (c / 4096) mod 64);
          byte_of_Z (128 + (c / 64) mod 64);
          byte_of_Z (128 + c mod 64)]
  else None.

Fixpoint encode (s : str) : option (list byte) :=
  match s with
  | [] => Some []
  | c :: s' =>
      match encode_cp c, encode s' with
      | Some bs, Some bs' => Some (bs ++ bs')
      | _, _ => None
      end
  end.

End Utf8.

(** [bs.decode('utf-8')] *)
Definition decode_utf8 (bs : list byte) : result str :=
  match Utf8.decode bs with
  | Some s => Ok s
  | None => Raise UnicodeDecodeError
  end.

(** [s.encode('utf-8')] *)
Definition encode_utf8 (s : str) : result (list byte) :=
  match Utf8.encode s with
  | Some bs => Ok bs
  | None => Raise UnicodeEncodeError
  end.

(** ** [_get_line_at_position] (lines 66-78) *)

(** [while position > 0 and mm[position - 1:position] != b'\n': position -= 1] *)
Fixpoint scan_back (mm : list byte) (n : nat) (position : Z) : Z :=
  match n with
  | O => position
  | S n' =>
      if bool_decide (position > 0)
         && bool_decide (slice mm (position - 1) position ≠ [NL])
      then scan_back mm n' (position - 1)
      else position
  end.

(** [while position < len(mm) and mm[position:position + 1] != b'\n': position += 1] *)
Fixpoint scan_fwd (mm : list byte) (n : nat) (position : Z) : Z :=
  match n with
  | O => position
  | S n' =>
      if bool_decide (position < len mm)
         && bool_decide (slice mm position (position + 1) ≠ [NL])
      then scan_fwd mm n' (position + 1)
      else position
  end.

(** The value of [line_start] at line 72: the backward loop run on its
    variant [position]. *)
Definition line_start (mm : list byte) (position : Z) : Z :=
  scan_back mm (Z.to_nat position) position.

(** The value of [position] at line 78: the forward loop, started at
    [line_start], run on its variant [len(mm) - position]. *)
Definition line_end (mm : list byte) (position : Z) : Z :=
  let s := line_start mm position in
  scan_fwd mm (Z.to_nat (len mm - s)) s.

(** The span [(line_start, position)] that line 78 slices. *)
Definition line_span (mm : list byte) (position : Z) : Z * Z :=
  (line_start mm position, line_end mm position).

(** The bytes [mm[line_start:position]] of line 78, before decoding. *)
Definition line_bytes (mm : list byte) (position : Z) : list byte :=
  slice mm (line_start mm position) (line_end mm position).

Definition _get_line_at_position (mm : list byte) (position : Z) : result str :=
  decode_utf8 (line_bytes mm position).

(** ** [_binary_search_date] (lines 80-103) *)

(** What stands on the right of an unpacking assignment [a, b = v] here:
    an [int], or a pair of [int]s. *)
Inductive pyval : Type :=
  | PyInt (n : Z)
  | PyPair (a b : Z).

(** [a, b = v]: an [int] is not iterable. *)
Definition unpack2 (v : pyval) : result (Z * Z) :=
  match v with
  | PyPair a b => Ok (a, b)
  | PyInt _ => Raise TypeError
  end.

(** [line[:10]], the date part of a line (line 91). *)
Definition date_key (line : str) : str := slice line 0 10.

(** Lines 91-99, the body of the [try]: slicing and comparing [str]s
    raises nothing. The triple is [(left, right, first_occurrence)]. *)
Definition compare_probe (line target_date : str)
    (left right first_occurrence mid : Z) : result (Z * Z * Z) :=
  let line_date := date_key line in
  if str_eqb line_date target_date then Ok (left, mid, mid)
  else if str_ltb line_date target_date then Ok (mid + 1, right, first_occurrence)
  else Ok (left, mid, first_occurrence).

(** Lines 85-101. The call of line 89 stands before the [try] of line 90:
    what it raises leaves the loop. *)
Fixpoint search_loop (mm : list byte) (target_date : str) (n : nat)
    (left right first_occurrence : Z) : result Z :=
  match n with
  | O => Ok first_occurrence
  | S n' =>
      if bool_decide (left < right) then
        let mid := (left + right) `div` 2 in
        line ← _get_line_at_position mm mid;
        let '(left', right', first') :=
          try_except
            (compare_probe line target_date left right first_occurrence mid)
            (left, mid, first_occurrence) in
        search_loop mm target_date n' left' right' first'
      else Ok first_occurrence
  end.

Definition _binary_search_date (mm : list byte) (target_date : str) : result Z :=
  '(left0, right0) ← unpack2 (PyInt (len mm));
  search_loop mm target_date (Z.to_nat (right0 - left0)) left0 right0 (-1).

(** ** [extract_logs] (lines 114-146) *)

(** Code running with the output file open: the text written so far is
    threaded through, and is kept when an exception passes. *)
Definition io (A : Type) : Type := list str -> list str * result A.

#[global] Instance io_ret : MRet io := fun A a out => (out, Ok a).

#[global] Instance io_bind : MBind io := fun A B k m out =>
  match m out with
  | (out', Ok a) => k a out'
  | (out', Raise e) => (out', Raise e)
  end.

(** [out_f.write(s)] *)
Definition write (s : str) : io unit := fun out => (out ++ [s], Ok ()).

Definition lift {A} (r : result A) : io A := fun out => (out, r).

(** Lines 130-137, one turn of the loop: [None] is the [break], [Some p]
    the position for the next turn. *)
Definition extract_body (mm : list byte) (target_date : str) (position : Z)
    : io (option Z) :=
  line ← lift (_get_line_at_position mm position);
  if negb (startswith line target_date) then mret None
  else
    write (line ++ [10]);;
    bs ← lift (encode_utf8 line);
    mret (Some (position + (len bs + 1))).

(** Lines 129-137. *)
Fixpoint extract_loop (mm : list byte) (target_date : str) (n : nat)
    (position : Z) : io unit :=
  match n with
  | O => mret ()
  | S n' =>
      if bool_decide (position < len mm) then
        next ← extract_body mm target_date position;
        match next with
        | None => mret ()
        | Some position' => extract_loop mm target_date n' position'
        end
      else mret ()
  end.

(** The forward extraction from [position]: the loop on its variant
    [len(mm) - position], the output file just opened. *)
Definition extract_forward (mm : list byte) (target_date : str) (position : Z)
    : list str * result unit :=
  extract_loop mm target_date (Z.to_nat (len mm - position)) position [].

(** A [str] literal. *)
Definition lit (s : string) : str := u8 <$> list_byte_of_string s.

(** What [extract_logs] prints. *)
Inductive msg : Type :=
  | Processing (target_date : str)
  | NoLogsFound (target_date : str)
  | ExtractedTo (output_file : str)
  | Error (e : exn).

(** Lines 122-141: from the result of the search to the end of the [try]
    block. [fs] maps the path of a text file to its content;
    [open(output_file, 'w')] truncates, and the file keeps what was
    written when the [with] block is left, by an exception too. *)
Definition extract_from (mm : list byte) (target_date : str) (position : Z)
    (fs : gmap str str) : gmap str str * list msg * result unit :=
  let output_file := lit "output/output_" ++ target_date ++ lit ".txt" in
  if bool_decide (position = -1) then (fs, [NoLogsFound target_date], Ok ())
  else
    let '(out, r) := extract_forward mm target_date position in
    let fs' := <[output_file := concat out]> fs in
    match r with
    | Ok _ => (fs', [ExtractedTo output_file], Ok ())
    | Raise e => (fs', [], Raise e)
    end.

(** Lines 114-146, the log file being fetched and mapped as [mm]: the
    files and what is printed. *)
Definition extract_logs (mm : list byte) (target_date : str)
    (fs : gmap str str) : gmap str str * list msg :=
  let '(fs', printed, r) :=
    match _binary_search_date mm target_date with
    | Ok position => extract_from mm target_date position fs
    | Raise e => (fs, [], Raise e)
    end in
  match r with
  | Ok _ => (fs', Processing target_date :: printed)
  | Raise e => (fs', Processing target_date :: printed ++ [Error e])
  end.

(** [b'...'] *)
Definition bytes_of (s : string) : list byte := list_byte_of_string s.

(** ** Lines of a region, as the data model has them *)

(** Offset [i] holds a terminator. *)
Definition is_NL (mm : list byte) (i : Z) : Prop :=
  0 <= i /\ mm !! Z.to_nat i = Some NL.

(** [[s, e)] is a line: a maximal span without terminator. *)
Definition is_line (mm : list byte) (s e : Z) : Prop :=
  0 <= s <= e /\ e <= len mm /\
  (s = 0 \/ is_NL mm (s - 1)) /\
  (e = len mm \/ is_NL mm e) /\
  forall i, s <= i < e -> ~ is_NL mm i.

(** Offset [s] starts a line. *)
Definition is_line_start (mm : list byte) (s : Z) : Prop :=
  0 <= s <= len mm /\ (s = 0 \/ is_NL mm (s - 1)).

(** The byte sequence cut at its terminators, [bs.split(b'\n')]. *)
Fixpoint split_NL (bs : list byte) : list (list byte) :=
  match bs with
  | [] => [[]]
  | b :: bs' =>
      if decide (b = NL) then [] :: split_NL bs'
      else match split_NL bs' with
           | l :: ls => (b :: l) :: ls
           | [] => [[b]]
           end
  end.

(** The lines of the region from offset [s] on, in file order. *)
Definition lines_from (mm : list byte) (s : Z) : list (list byte) :=
  split_NL (drop (Z.to_nat s) mm).

(** [extractForward] in the words of the specification, on the lines from
    the start offset on: a line is yielded when its date key equals the
    target; the sequence ends at the first line whose key differs and at
    the end of the region; a line that does not decode fails the run. *)
Fixpoint extractForward_spec (target_date : str) (ls : list (list byte))
    : list str * result unit :=
  match ls with
  | [] => ([], Ok ())
  | l :: ls' =>
      match decode_utf8 l with
      | Raise e => ([], Raise e)
      | Ok line =>
          if str_eqb (date_key line) target_date then
            let '(out, r) := extractForward_spec target_date ls' in
            ((line ++ [10]) :: out, r)
          else ([], Ok ())
      end
  end.

(** Every line of the region decodes. *)
Definition decodable (mm : list byte) : Prop :=
  forall p, 0 <= p < len mm -> exists line, _get_line_at_position mm p = Ok line.

(** The ordering precondition: date keys do not decrease along the region. *)
Definition sorted_by_date (mm : list byte) : Prop :=
  forall p q lp lq,
    0 <= p -> p <= q -> q < len mm ->
    _get_line_at_position mm p = Ok lp ->
    _get_line_at_position mm q = Ok lq ->
    str_ltb (date_key lq) (date_key lp) = false.

(** The line at offset [p] has date key [k]. *)
Definition key_at (mm : list byte) (p : Z) (k : str) : Prop :=
  exists line, _get_line_at_position mm p = Ok line /\ date_key line = k.

(** Scenario A of the specification: three lines of 2024-01-01, two of
    2024-01-02, one of 2024-01-03. *)
Definition scenario_A : list byte :=
  bytes_of "2024-01-01 a" ++ [NL] ++ bytes_of "2024-01-01 b" ++ [NL] ++
  bytes_of "2024-01-01 c" ++ [NL] ++ bytes_of "2024-01-02 d" ++ [NL] ++
  bytes_of "2024-01-02 e" ++ [NL] ++ bytes_of "2024-01-03 f" ++ [NL].

(** ** The choice of the log file in [download_and_extract] (lines 44-51) *)

(** [s.endswith(t)] *)
Definition endswith (s t : str) : bool := bool_decide (t `suffix_of` s).

(** [os.path.join(a, b)], POSIX. *)
Definition path_join (a b : str) : str :=
  if startswith b (lit "/") then b
  else if bool_decide (a = []) || endswith a (lit "/") then a ++ b
  else a ++ lit "/" ++ b.

(** [file.endswith(('.log', '.txt'))] *)
Definition is_log_name (file : str) : bool :=
  endswith file (lit ".log") || endswith file (lit ".txt").

(** Lines 45-48: the loop over [os.listdir(self.temp_dir)], given as
    [listing] in the order of the iteration; the value is
    [self.log_file_path] after the loop. *)
Fixpoint find_log_file (temp_dir : str) (listing : list str)
    (log_file_path : option str) : option str :=
  match listing with
  | [] => log_file_path
  | file :: listing' =>
      if is_log_name file then Some (path_join temp_dir file)
      else find_log_file temp_dir listing' log_file_path
  end.

(** [not x] for [x] that is [None] or a [str]. *)
Definition falsy (x : option str) : bool :=
  match x with
  | None | Some [] => true
  | Some (_ :: _) => false
  end.

(** Lines 44-51: [self.log_file_path] after them, and the message of the
    [Exception] of line 51 when it is raised. *)
Definition select_log_file (temp_dir : str) (listing : list str)
    (log_file_path : option str) : option str * option str :=
  let log_file_path' := find_log_file temp_dir listing log_file_path in
  if falsy log_file_path'
  then (log_file_path', Some (lit "No log file found in zip archive"))
  else (log_file_path', None).

(** ** The variables of the search loop, turn by turn *)

(** Lines 86-101, one turn of the loop: the new
    [(left, right, first_occurrence)]. *)
Definition search_turn (mm : list byte) (target_date : str)
    (left right first_occurrence : Z) : result (Z * Z * Z) :=
  let mid := (left + right) `div` 2 in
  line ← _get_line_at_position mm mid;
  Ok (try_except
        (compare_probe line target_date left right first_occurrence mid)
        (left, mid, first_occurrence)).

(** Lines 85-101: [(left, right, first_occurrence)] when the loop is left,
    or after [n] turns when it is not left before. *)
Fixpoint search_state (mm : list byte) (target_date : str) (n : nat)
    (left right first_occurrence : Z) : result (Z * Z * Z) :=
  match n with
  | O => Ok (left, right, first_occurrence)
  | S n' =>
      if bool_decide (left < right) then
        '(left', right', first') ←
          search_turn mm target_date left right first_occurrence;
        search_state mm target_date n' left' right' first'
      else Ok (left, right, first_occurrence)
  end.

(** ** Checks that run *)

Definition decodableb (mm : list byte) : bool :=
  forallb
    (fun p => match _get_line_at_position mm p with
              | Ok _ => true
              | Raise _ => false
              end)
    (seqZ 0 (len mm)).

Definition sorted_by_dateb (mm : list byte) : bool :=
  forallb
    (fun p =>
       forallb
         (fun q => match _get_line_at_position mm p, _get_line_at_position mm q with
                   | Ok lp, Ok lq => negb (str_ltb (date_key lq) (date_key lp))
                   | _, _ => true
                   end)
         (seqZ p (len mm - p)))
    (seqZ 0 (len mm)).

(** The lines among [ls] that decode and have the date key [target_date]. *)
Definition matching_lines (target_date : str) (ls : list (list byte)) : list str :=
  omap (fun l => match decode_utf8 l with
                 | Ok line =>
                     if str_eqb (date_key line) target_date then Some line else None
                 | Raise _ => None
                 end) ls.

(** * Properties *)

(** ** Bytes *)

Lemma u8_range b : 0 <= u8 b < 256.
Proof.
  unfold u8. pose proof (Byte.to_N_bounded b). lia.
Qed.

Lemma byte_of_Z_u8 b : byte_of_Z (u8 b) = b.
Proof.
  unfold byte_of_Z, u8. rewrite N2Z.id, Byte.of_to_N. reflexivity.
Qed.

Lemma u8_inj a b : u8 a = u8 b -> a = b.
Proof.
  intros H. rewrite <- (byte_of_Z_u8 a), <- (byte_of_Z_u8 b). congruence.
Qed.

Lemma u8_NL b : u8 b = 10 <-> b = NL.
Proof.
  split; [intros H; apply u8_inj; exact H | intros ->; reflexivity].
Qed.

(** ** The codec *)

Module Utf8Facts.
Import Utf8.

Lemma between_spec lo hi b : between lo hi b = true <-> lo <= u8 b <= hi.
Proof. unfold between. rewrite andb_true_iff, !Z.leb_le. tauto. Qed.

Lemma cont_spec b : cont b = true <-> 128 <= u8 b <= 191.
Proof. apply between_spec. Qed.

Lemma byte_of_Z_eq z b : z = u8 b -> byte_of_Z z = b.
Proof. intros ->. apply byte_of_Z_u8. Qed.

Ltac byte_bounds :=
  repeat match goal with
  | H : between _ _ _ = true |- _ => apply between_spec in H
  | H : cont _ = true |- _ => apply cont_spec in H
  | H : _ && _ = true |- _ => apply andb_prop in H as [? ?]
  end;
  unfold second_lo, second_hi in *;
  repeat match goal with
  | H : context [Z.eqb ?a ?b] |- _ => destruct (Z.eqb_spec a b)
  end.

Ltac pick_branch :=
  unfold encode_cp;
  repeat match goal with
  | |- context [Z.ltb ?a ?b] => destruct (Z.ltb_spec a b); try lia
  | |- context [(?a <=? ?b) && (?c <=? ?d)] =>
      destruct (Z.leb_spec a b), (Z.leb_spec c d); cbn [andb]; try lia
  end.

(** What one step of [decode] consumes and produces. *)
Lemma decode_cons_inv b0 r0 s :
  decode (b0 :: r0) = Some s ->
  exists c s' pre rest,
    b0 :: r0 = pre ++ rest /\ s = c :: s' /\ decode rest = Some s' /\
    encode_cp c = Some pre /\ (0 < length pre)%nat /\
    ((c < 128 /\ pre = [b0] /\ c = u8 b0) \/
     (128 <= c /\ Forall (fun b => 128 <= u8 b) pre)).
Proof.
  pose proof (u8_range b0) as R0.
  cbn [decode].
  destruct (Z.ltb_spec (u8 b0) 128) as [L1|L1].
  { destruct (decode r0) as [s'|] eqn:E; [|discriminate].
    intros [= <-]. exists (u8 b0), s', [b0], r0.
    split; [reflexivity|]. split; [reflexivity|]. split; [exact E|].
    split; [|cbn; split; [lia|]].
    - pick_branch. rewrite byte_of_Z_u8. done.
    - left. auto. }
  destruct (between 194 223 b0) eqn:T2.
  { destruct r0 as [|b1 r1]; [discriminate|].
    destruct (cont b1) eqn:C1; [|discriminate].
    destruct (decode r1) as [s'|] eqn:E; [|discriminate].
    intros [= <-]. pose proof (u8_range b1). byte_bounds.
    eexists _, s', [b0; b1], r1.
    split; [reflexivity|]. split; [reflexivity|]. split; [exact E|].
    split; [|cbn; split; [lia|]].
    - pick_branch. repeat f_equal; apply byte_of_Z_eq; Z.div_mod_to_equations; lia.
    - right. split; [lia|]. repeat constructor; lia. }
  destruct (between 224 239 b0) eqn:T3.
  { destruct r0 as [|b1 [|b2 r2]]; [discriminate..|].
    destruct (between _ _ b1 && cont b2) eqn:C1; [|discriminate].
    destruct (decode r2) as [s'|] eqn:E; [|discriminate].
    intros [= <-]. pose proof (u8_range b1). pose proof (u8_range b2).
    eexists _, s', [b0; b1; b2], r2.
    split; [reflexivity|]. split; [reflexivity|]. split; [exact E|].
    split; [|cbn; split; [lia|]].
    - byte_bounds; pick_branch; repeat f_equal; apply byte_of_Z_eq; Z.div_mod_to_equations; lia.
    - right. byte_bounds; (split; [lia|]); repeat constructor; lia. }
  destruct (between 240 244 b0) eqn:T4; [|discriminate].
  destruct r0 as [|b1 [|b2 [|b3 r3]]]; [discriminate..|].
  destruct (between _ _ b1 && cont b2 && cont b3) eqn:C1; [|discriminate].
  destruct (decode r3) as [s'|] eqn:E; [|discriminate].
  intros [= <-]. pose proof (u8_range b1). pose proof (u8_range b2).
  pose proof (u8_range b3).
  eexists _, s', [b0; b1; b2; b3], r3.
  split; [reflexivity|]. split; [reflexivity|]. split; [exact E|].
  split; [|cbn; split; [lia|]].
  - byte_bounds; pick_branch; repeat f_equal; apply byte_of_Z_eq; Z.div_mod_to_equations; lia.
  - right. byte_bounds; (split; [lia|]); repeat constructor; lia.
Qed.
Lemma encode_app_cp c s pre bs :
  encode_cp c = Some pre -> encode s = Some bs -> encode (c :: s) = Some (pre ++ bs).
Proof. intros H1 H2. cbn [encode]. rewrite H1, H2. reflexivity. Qed.

Lemma decode_ind_len (P : list byte -> str -> Prop) :
  P [] [] ->
  (forall c s' pre rest,
     decode rest = Some s' -> P rest s' -> encode_cp c = Some pre ->
     (0 < length pre)%nat ->
     ((c < 128 /\ exists b, pre = [b] /\ c = u8 b) \/
      (128 <= c /\ Forall (fun b => 128 <= u8 b) pre)) ->
     decode (pre ++ rest) = Some (c :: s') ->
     P (pre ++ rest) (c :: s')) ->
  forall bs s, decode bs = Some s -> P bs s.
Proof.
  intros Hnil Hstep bs.
  remember (length bs) as n eqn:Hn.
  revert bs Hn. induction (lt_wf n) as [n _ IH]. intros bs -> s Hd.
  destruct bs as [|b0 r0].
  { cbn in Hd. injection Hd as <-. exact Hnil. }
  pose proof Hd as Hd'.
  apply decode_cons_inv in Hd as (c & s' & pre & rest & E & -> & Hr & Hc & Hl & Hk).
  rewrite E in *. apply Hstep; auto.
  - eapply (IH (length rest)); [|reflexivity|exact Hr].
    rewrite length_app. lia.
  - destruct Hk as [(? & -> & ?)|?]; [left; split; [assumption|exists b0; auto]|right; auto].
Qed.

Lemma decode_encode bs s : decode bs = Some s -> encode s = Some bs.
Proof.
  revert bs s. apply (decode_ind_len (fun bs s => encode s = Some bs)); [reflexivity|].
  intros c s' pre rest _ IH Hc _ _ _. apply encode_app_cp; assumption.
Qed.

Lemma decode_newline bs s : decode bs = Some s -> 10 ∈ s -> NL ∈ bs.
Proof.
  revert bs s. apply (decode_ind_len (fun bs s => 10 ∈ s -> NL ∈ bs));
    [intros H%elem_of_nil; done|].
  intros c s' pre rest _ IH _ _ Hk _ [<-|Hin]%elem_of_cons.
  - destruct Hk as [(_ & b & -> & Hb)|[? _]]; [|lia].
    symmetry in Hb. apply u8_NL in Hb as ->. set_solver.
  - apply elem_of_app. right. auto.
Qed.

End Utf8Facts.

(** ** Slices *)

Lemma len_nonneg {A} (l : list A) : 0 <= len l.
Proof. unfold len. lia. Qed.

Lemma slice_in_range {A} (l : list A) a b :
  0 <= a -> a <= b -> b <= len l ->
  slice l a b = take (Z.to_nat (b - a)) (drop (Z.to_nat a) l).
Proof.
  intros Ha Hab Hb. unfold slice, adjust.
  destruct (Z.ltb_spec a 0), (Z.ltb_spec b 0); try lia.
  rewrite !Z.min_l by lia. reflexivity.
Qed.

Lemma slice_prefix {A} (l : list A) n : 0 <= n -> slice l 0 n = take (Z.to_nat n) l.
Proof.
  intros Hn. unfold slice, adjust. pose proof (len_nonneg l).
  destruct (Z.ltb_spec n 0); [lia|]. cbn [Z.ltb Z.compare].
  rewrite (Z.min_l 0) by lia. rewrite Z.sub_0_r. change (Z.to_nat 0) with 0%nat. rewrite drop_0.
  destruct (Z.le_ge_cases n (len l)).
  - rewrite Z.min_l by lia. reflexivity.
  - rewrite Z.min_r by lia. unfold len in *. rewrite Nat2Z.id.
    rewrite take_ge by lia. rewrite take_ge by lia. reflexivity.
Qed.

(** The one-byte slices that the scans compare with [b'\n']. *)
Lemma slice_one mm i :
  0 <= i -> slice mm i (i + 1) = [NL] <-> is_NL mm i.
Proof.
  intros Hi. unfold is_NL, slice, adjust, len.
  destruct (Z.ltb_spec i 0), (Z.ltb_spec (i + 1) 0); try lia.
  destruct (Z.lt_ge_cases i (Z.of_nat (length mm))) as [Hlt|Hge].
  - rewrite !Z.min_l by lia.
    replace (Z.to_nat (i + 1 - i)) with 1%nat by lia.
    destruct (lookup_lt_is_Some_2 mm (Z.to_nat i)) as [x Hx]; [lia|].
    rewrite (drop_S _ _ _ Hx). cbn. rewrite take_0, Hx.
    split; [intros [= ->]; auto | intros [_ [= ->]]; auto].
  - rewrite !Z.min_r by lia. rewrite Z.sub_diag. cbn.
    rewrite lookup_ge_None_2 by lia.
    split; [discriminate | intros [_ [=]]].
Qed.

Lemma is_NL_lt mm i : is_NL mm i -> 0 <= i < len mm.
Proof.
  intros [Hi Hl]. apply lookup_lt_Some in Hl. unfold len. lia.
Qed.


(** ** The two scans of [_get_line_at_position] *)

Section Scans.
Variable mm : list byte.

Lemma back_test p :
  0 <= p ->
  bool_decide (p > 0) && bool_decide (slice mm (p - 1) p ≠ [NL]) = false
  <-> p = 0 \/ is_NL mm (p - 1).
Proof.
  intros Hp. rewrite andb_false_iff, !bool_decide_eq_false.
  split.
  - intros [H|H]; [left; lia|].
    destruct (decide (p = 0)) as [|Hne]; [auto|right].
    apply dec_stable in H. replace p with (p - 1 + 1) in H at 2 by lia.
    apply slice_one in H; [exact H|lia].
  - intros [->|H]; [left; lia|right].
    intros Hne. apply Hne. pose proof (is_NL_lt _ _ H).
    replace p with (p - 1 + 1) at 2 by lia. apply slice_one; [lia|exact H].
Qed.

Lemma fwd_test p :
  0 <= p ->
  bool_decide (p < len mm) && bool_decide (slice mm p (p + 1) ≠ [NL]) = false
  <-> len mm <= p \/ is_NL mm p.
Proof.
  intros Hp. rewrite andb_false_iff, !bool_decide_eq_false.
  split.
  - intros [H|H]; [left; lia|right].
    apply dec_stable in H. apply slice_one in H; auto.
  - intros [H|H]; [left; lia|right].
    intros Hne. apply Hne. apply slice_one; auto.
Qed.

(** The backward loop leaves with its condition false, having passed
    no terminator. *)
Lemma scan_back_spec n p :
  0 <= p -> (Z.to_nat p <= n)%nat ->
  let s := scan_back mm n p in
  0 <= s <= p /\ (s = 0 \/ is_NL mm (s - 1)) /\
  forall i, s <= i < p -> ~ is_NL mm i.
Proof.
  revert p. induction n as [|n IH]; intros p Hp Hn; cbn [scan_back].
  { assert (p = 0) as -> by lia. cbn. split; [lia|]. split; [auto|]. lia. }
  destruct (_ && _) eqn:T.
  - apply andb_prop in T as [T1%bool_decide_eq_true T2%bool_decide_eq_true].
    destruct (IH (p - 1)) as (B & X & N); [lia..|].
    split; [lia|]. split; [exact X|].
    intros i Hi HNL. destruct (decide (i = p - 1)) as [->|Hne].
    + apply T2. replace p with (p - 1 + 1) at 2 by lia.
      apply slice_one; [lia|exact HNL].
    + apply (N i); [lia|exact HNL].
  - apply back_test in T; [|exact Hp]. split; [lia|]. split; [exact T|]. lia.
Qed.

(** The forward loop leaves with its condition false, having passed
    no terminator. *)
Lemma scan_fwd_spec n s :
  0 <= s -> (Z.to_nat (len mm - s) <= n)%nat ->
  let e := scan_fwd mm n s in
  s <= e /\ (s <= len mm -> e <= len mm) /\ (len mm <= e \/ is_NL mm e) /\
  forall i, s <= i < e -> ~ is_NL mm i.
Proof.
  revert s. induction n as [|n IH]; intros s Hs Hn; cbn [scan_fwd].
  { split; [lia|]. split; [auto|]. split; [left; lia|]. lia. }
  destruct (_ && _) eqn:T.
  - apply andb_prop in T as [T1%bool_decide_eq_true T2%bool_decide_eq_true].
    destruct (IH (s + 1)) as (B & L & X & N); [lia..|].
    split; [lia|]. split; [lia|]. split; [exact X|].
    intros i Hi HNL. destruct (decide (i = s)) as [->|Hne].
    + apply T2. apply slice_one; [lia|exact HNL].
    + apply (N i); [lia|exact HNL].
  - apply fwd_test in T; [|exact Hs].
    split; [lia|]. split; [auto|]. split; [exact T|]. lia.
Qed.

(** More turns than the variant change nothing. *)
Lemma scan_back_more n m p :
  0 <= p -> (Z.to_nat p <= n)%nat -> (n <= m)%nat ->
  scan_back mm m p = scan_back mm n p.
Proof.
  revert m p. induction n as [|n IH]; intros m p Hp Hn Hm.
  - assert (p = 0) as -> by lia. destruct m; reflexivity.
  - destruct m as [|m]; [lia|]. cbn [scan_back].
    destruct (_ && _) eqn:T; [|reflexivity].
    apply andb_prop in T as [T1%bool_decide_eq_true _].
    apply IH; lia.
Qed.

Lemma scan_fwd_more n m s :
  (Z.to_nat (len mm - s) <= n)%nat -> (n <= m)%nat ->
  scan_fwd mm m s = scan_fwd mm n s.
Proof.
  revert m s. induction n as [|n IH]; intros m s Hn Hm.
  - destruct m; [reflexivity|]. cbn [scan_fwd].
    destruct (bool_decide_reflect (s < len mm)); [lia|reflexivity].
  - destruct m as [|m]; [lia|]. cbn [scan_fwd].
    destruct (_ && _) eqn:T; [|reflexivity].
    apply IH; lia.
Qed.

(** [_get_line_at_position] resolves a line of the region that holds the
    probed offset. *)
Lemma line_span_is_line p :
  0 <= p <= len mm ->
  is_line mm (line_start mm p) (line_end mm p) /\
  line_start mm p <= p <= line_end mm p.
Proof.
  intros Hp. unfold line_end.
  destruct (scan_back_spec (Z.to_nat p) p) as (B & X & N); [lia..|].
  fold (line_start mm p) in *. set (s := line_start mm p) in *.
  destruct (scan_fwd_spec (Z.to_nat (len mm - s)) s) as (B' & L & X' & N');
    [lia..|].
  set (e := scan_fwd mm _ s) in *.
  assert (p <= e) as Hpe.
  { destruct (Z.le_gt_cases p e) as [|Hlt]; [assumption|exfalso].
    destruct X' as [?|HNL]; [lia|]. apply (N e); [lia|exact HNL]. }
  split; [|lia].
  split; [lia|]. split; [lia|]. split; [exact X|].
  split; [|exact N'].
  destruct X' as [?|?]; [left; lia|right; assumption].
Qed.

(** A line is fixed by any one of its offsets. *)
Lemma is_line_unique s e s' e' p :
  is_line mm s e -> is_line mm s' e' ->
  s <= p <= e -> s' <= p <= e' -> s = s' /\ e = e'.
Proof.
  intros (B & L & S0 & E0 & N) (B' & L' & S0' & E0' & N') Hp Hp'.
  split.
  - destruct (Z.lt_trichotomy s s') as [Hlt|[?|Hlt]]; [exfalso|assumption|exfalso].
    + destruct S0' as [?|HNL]; [lia|]. apply (N (s' - 1)); [lia|exact HNL].
    + destruct S0 as [?|HNL]; [lia|]. apply (N' (s - 1)); [lia|exact HNL].
  - destruct (Z.lt_trichotomy e e') as [Hlt|[?|Hlt]]; [exfalso|assumption|exfalso].
    + destruct E0 as [?|HNL]; [lia|]. apply (N' e); [lia|exact HNL].
    + destruct E0' as [?|HNL]; [lia|]. apply (N e'); [lia|exact HNL].
Qed.

Lemma line_span_of_line s e p :
  is_line mm s e -> s <= p <= e -> line_span mm p = (s, e).
Proof.
  intros Hl Hp. pose proof Hl as (B & L & _).
  destruct (line_span_is_line p) as [Hl' Hp']; [lia|].
  destruct (is_line_unique _ _ _ _ p Hl' Hl Hp' Hp) as [Hs He].
  unfold line_span. rewrite Hs, He. reflexivity.
Qed.

End Scans.

(** ** Lines and their content *)

Lemma is_line_iff_span mm s e :
  is_line mm s e <-> 0 <= s <= len mm /\ line_span mm s = (s, e).
Proof.
  split.
  - intros Hl. pose proof Hl as (B & L & _). split; [lia|].
    apply line_span_of_line; [exact Hl|lia].
  - intros [Hs Hsp]. destruct (line_span_is_line mm s Hs) as [Hl _].
    unfold line_span in Hsp. injection Hsp as H1 H2.
    rewrite H1, H2 in Hl. exact Hl.
Qed.

Lemma elem_of_slice {A} (l : list A) a b x :
  0 <= a -> a <= b -> b <= len l ->
  x ∈ slice l a b <-> exists i, a <= i < b /\ l !! Z.to_nat i = Some x.
Proof.
  intros Ha Hab Hb. rewrite slice_in_range by assumption.
  rewrite list_elem_of_lookup. split.
  - intros [j Hj]. apply lookup_take_Some in Hj as [Hj Hlt].
    rewrite lookup_drop in Hj. exists (a + Z.of_nat j). split; [lia|].
    rewrite <- Hj. f_equal. lia.
  - intros (i & Hi & Hx). exists (Z.to_nat (i - a)).
    apply lookup_take_Some. split; [|lia].
    rewrite lookup_drop, <- Hx. f_equal. lia.
Qed.

Lemma line_bytes_no_NL mm p : 0 <= p <= len mm -> NL ∉ line_bytes mm p.
Proof.
  intros Hp. destruct (line_span_is_line mm p Hp) as [(B & L & _ & _ & N) _].
  unfold line_bytes. rewrite elem_of_slice by lia.
  intros (i & Hi & Hx). apply (N i Hi). split; [lia|exact Hx].
Qed.

Lemma length_slice {A} (l : list A) a b :
  0 <= a -> a <= b -> b <= len l -> len (slice l a b) = b - a.
Proof.
  intros Ha Hab Hb. rewrite slice_in_range by assumption.
  unfold len in *. rewrite length_take, length_drop. lia.
Qed.

(** C6: two offsets of one line, the terminator that ends it included,
    resolve to the same span, the span of that line, and to the same
    content. *)
Theorem resolve_same_line mm s e p q :
  is_line mm s e -> s <= p <= e -> s <= q <= e ->
  line_span mm p = (s, e) /\ line_span mm q = (s, e) /\
  _get_line_at_position mm p = _get_line_at_position mm q.
Proof.
  intros Hl Hp Hq.
  pose proof (line_span_of_line mm s e p Hl Hp) as Ep.
  pose proof (line_span_of_line mm s e q Hl Hq) as Eq.
  split; [exact Ep|]. split; [exact Eq|].
  unfold _get_line_at_position, line_bytes.
  unfold line_span in Ep, Eq. injection Ep as -> ->. injection Eq as -> ->.
  reflexivity.
Qed.

(** Scenario A: an inner offset of the second line and the offset of its
    terminator. *)
Lemma resolve_same_line_witness :
  line_span scenario_A 17 = (13, 25) /\ line_span scenario_A 25 = (13, 25) /\
  _get_line_at_position scenario_A 17 = _get_line_at_position scenario_A 25.
Proof.
  apply (resolve_same_line scenario_A 13 25 17 25).
  - apply is_line_iff_span. split; [vm_compute; split; congruence|reflexivity].
  - lia.
  - lia.
Defined.



(** C9: on every position of [[0, len(mm)]] both loops end before their
    counters do, with their conditions false; the span is a line within
    the region, and neither its bytes nor the decoded content hold a
    terminator. *)
Theorem resolve_total mm p :
  0 <= p <= len mm ->
  (forall n, (Z.to_nat p <= n)%nat -> scan_back mm n p = line_start mm p) /\
  (forall n, (Z.to_nat (len mm - line_start mm p) <= n)%nat ->
     scan_fwd mm n (line_start mm p) = line_end mm p) /\
  is_line mm (line_start mm p) (line_end mm p) /\
  0 <= line_start mm p <= line_end mm p /\ line_end mm p <= len mm /\
  (NL ∉ line_bytes mm p) /\
  forall line, _get_line_at_position mm p = Ok line -> 10 ∉ line.
Proof.
  intros Hp. destruct (line_span_is_line mm p Hp) as [Hl Hb].
  split; [intros n Hn; apply scan_back_more; lia|].
  split; [intros n Hn; apply scan_fwd_more; lia|].
  split; [exact Hl|]. pose proof Hl as (B & L & _).
  split; [lia|]. split; [lia|].
  split; [apply line_bytes_no_NL; exact Hp|].
  intros line Hd Hin. unfold _get_line_at_position, decode_utf8 in Hd.
  destruct (Utf8.decode _) as [s|] eqn:E; [|discriminate].
  injection Hd as ->.
  apply (line_bytes_no_NL mm p Hp). eapply Utf8Facts.decode_newline; eauto.
Qed.

(** Scenario A: offset 20, inside the second line. *)
Lemma resolve_total_witness :
  line_span scenario_A 20 = (13, 25) /\
  forall line, _get_line_at_position scenario_A 20 = Ok line -> 10 ∉ line.
Proof.
  split; [reflexivity|].
  apply (resolve_total scenario_A 20).
  vm_compute. split; congruence.
Defined.

(** ** Strings *)

Lemma date_key_take line : date_key line = take 10 line.
Proof. unfold date_key. rewrite slice_prefix by lia. reflexivity. Qed.

Lemma startswith_take s t :
  startswith s t = true <-> take (length t) s = t.
Proof.
  revert s. induction t as [|y t IH]; intros s; cbn.
  - rewrite take_0. done.
  - destruct s as [|x s]; cbn; [split; discriminate|].
    rewrite andb_true_iff, Z.eqb_eq, IH. split.
    + intros [-> ->]. reflexivity.
    + intros [= -> ->]. auto.
Qed.

(** With a target of ten characters, the test of line 131 is the
    comparison of the date keys. *)
Lemma startswith_date_key line target_date :
  length target_date = 10%nat ->
  startswith line target_date = str_eqb (date_key line) target_date.
Proof.
  intros Hl. unfold str_eqb. rewrite date_key_take.
  destruct (startswith line target_date) eqn:E.
  - apply startswith_take in E. rewrite Hl in E.
    symmetry. apply bool_decide_eq_true. exact E.
  - symmetry. apply bool_decide_eq_false. intros H.
    rewrite <- Hl in H. apply startswith_take in H. congruence.
Qed.

(** ** Cutting a region into lines *)

Lemma split_NL_line l rest :
  NL ∉ l -> split_NL (l ++ NL :: rest) = l :: split_NL rest.
Proof.
  induction l as [|b l IH]; intros Hn; cbn.
  - destruct (decide (NL = NL)); [reflexivity|congruence].
  - destruct (decide (b = NL)) as [->|_]; [set_solver|].
    rewrite IH by set_solver. reflexivity.
Qed.

Lemma split_NL_last l : NL ∉ l -> split_NL l = [l].
Proof.
  induction l as [|b l IH]; intros Hn; cbn; [reflexivity|].
  destruct (decide (b = NL)) as [->|_]; [set_solver|].
  rewrite IH by set_solver. reflexivity.
Qed.

Section Lines.
Variable mm : list byte.

Lemma scan_back_exit n p :
  0 <= p -> p = 0 \/ is_NL mm (p - 1) -> scan_back mm n p = p.
Proof.
  intros Hp Hx. destruct n; cbn [scan_back]; [reflexivity|].
  apply back_test in Hx; [|exact Hp]. rewrite Hx. reflexivity.
Qed.

Lemma line_start_of_start s : is_line_start mm s -> line_start mm s = s.
Proof. intros [Hs Hx]. apply scan_back_exit; [lia|exact Hx]. Qed.

Lemma line_bytes_of_start s :
  is_line_start mm s -> line_bytes mm s = slice mm s (line_end mm s).
Proof.
  intros Hs. unfold line_bytes. rewrite line_start_of_start by exact Hs.
  reflexivity.
Qed.

Lemma drop_slice s e :
  0 <= s -> s <= e -> e <= len mm ->
  drop (Z.to_nat s) mm = slice mm s e ++ drop (Z.to_nat e) mm.
Proof.
  intros Hs He Hl. rewrite slice_in_range by assumption.
  rewrite <- (take_drop (Z.to_nat (e - s)) (drop (Z.to_nat s) mm)) at 1.
  f_equal. rewrite drop_drop. f_equal. lia.
Qed.

(** The line at a line start is the first of the lines from there; the
    others are the lines from the byte after its terminator. *)
Lemma lines_from_start s :
  is_line_start mm s ->
  let e := line_end mm s in
  s <= e /\ e <= len mm /\
  ((e = len mm /\ lines_from mm s = [line_bytes mm s]) \/
   (is_NL mm e /\ is_line_start mm (e + 1) /\
    lines_from mm s = line_bytes mm s :: lines_from mm (e + 1))).
Proof.
  intros Hs. pose proof Hs as [Hb Hx]. cbn zeta.
  destruct (line_span_is_line mm s Hb) as [Hl Hin].
  pose proof (line_bytes_no_NL mm s Hb) as Hno.
  rewrite line_start_of_start in Hl by exact Hs.
  rewrite line_bytes_of_start in * by exact Hs.
  pose proof Hl as (B & L & _ & E & _).
  split; [lia|]. split; [lia|].
  unfold lines_from. rewrite (drop_slice s (line_end mm s)) by lia.
  destruct (decide (line_end mm s = len mm)) as [Heq|Hne].
  - left. split; [exact Heq|].
    rewrite (drop_ge mm (Z.to_nat (line_end mm s))) by (unfold len in Heq; lia).
    rewrite app_nil_r. apply split_NL_last. exact Hno.
  - right. destruct E as [?|HNL]; [contradiction|].
    split; [exact HNL|]. pose proof (is_NL_lt _ _ HNL).
    split.
    { split; [lia|]. right. replace (line_end mm s + 1 - 1) with (line_end mm s) by lia.
      exact HNL. }
    destruct HNL as [_ HNL].
    rewrite (drop_S _ _ _ HNL).
    rewrite split_NL_line by exact Hno.
    do 3 f_equal. lia.
Qed.

End Lines.

(** ** The forward loop *)

Section Forward.
Variable mm : list byte.
Variable target_date : str.
Hypothesis target_len : length target_date = 10%nat.

(** What a line gives back when encoded: its own bytes. *)
Lemma encode_line position line :
  _get_line_at_position mm position = Ok line ->
  encode_utf8 line = Ok (line_bytes mm position).
Proof.
  unfold _get_line_at_position, decode_utf8, encode_utf8.
  destruct (Utf8.decode _) as [s|] eqn:E; [|discriminate].
  intros [= <-]. rewrite (Utf8Facts.decode_encode _ _ E). reflexivity.
Qed.

(** One turn at a line start: the three ways through the body. *)
Lemma extract_body_start s out :
  is_line_start mm s ->
  extract_body mm target_date s out =
    match decode_utf8 (line_bytes mm s) with
    | Raise e => (out, Raise e)
    | Ok line =>
        if str_eqb (date_key line) target_date
        then (out ++ [line ++ [10]], Ok (Some (line_end mm s + 1)))
        else (out, Ok None)
    end.
Proof.
  intros Hs. unfold extract_body, mbind, io_bind, lift, write, mret, io_ret.
  fold (_get_line_at_position mm s).
  destruct (_get_line_at_position mm s) as [line|e] eqn:E; [|reflexivity].
  rewrite <- startswith_date_key by exact target_len.
  destruct (startswith line target_date); cbn [negb]; [|reflexivity].
  rewrite (encode_line _ _ E).
  pose proof Hs as [Hb _].
  destruct (line_span_is_line mm s Hb) as [(B & L & _) _].
  rewrite line_start_of_start in B by exact Hs.
  rewrite line_bytes_of_start by exact Hs.
  rewrite length_slice by lia.
  do 3 f_equal. lia.
Qed.

Lemma spec_last_empty : extractForward_spec target_date [[]] = ([], Ok ()).
Proof.
  cbn. unfold str_eqb. rewrite bool_decide_eq_false_2; [reflexivity|].
  intros H. rewrite <- H in target_len. discriminate.
Qed.

(** The loop, entered at a line start with text [out] already written,
    adds what the specification yields on the lines from there on. *)
Lemma extract_loop_refines n s out :
  is_line_start mm s -> (Z.to_nat (len mm - s) <= n)%nat ->
  extract_loop mm target_date n s out =
    let '(o, r) := extractForward_spec target_date (lines_from mm s) in
    (out ++ o, r).
Proof.
  revert s out. induction n as [|n IH]; intros s out Hs Hn.
  { pose proof Hs as [Hb _]. assert (s = len mm) as -> by lia.
    unfold lines_from, len. rewrite Nat2Z.id, drop_all.
    cbn [split_NL]. rewrite spec_last_empty. cbn. rewrite app_nil_r. reflexivity. }
  cbn [extract_loop].
  destruct (bool_decide_reflect (s < len mm)) as [Hlt|Hge].
  2:{ pose proof Hs as [Hb _]. assert (s = len mm) as -> by lia.
      unfold lines_from, len. rewrite Nat2Z.id, drop_all.
      cbn [split_NL]. rewrite spec_last_empty. cbn. rewrite app_nil_r. reflexivity. }
  unfold mbind at 1, io_bind at 1. rewrite extract_body_start by exact Hs.
  destruct (lines_from_start mm s Hs) as (B & L & [[He Hls]|(HNL & Hs' & Hls)]);
    rewrite Hls; cbn [extractForward_spec];
    destruct (decode_utf8 (line_bytes mm s)) as [line|e];
    try (rewrite app_nil_r; reflexivity);
    destruct (str_eqb (date_key line) target_date);
    try (rewrite app_nil_r; reflexivity).
  - destruct n; cbn [extract_loop mret io_ret]; [reflexivity|].
    rewrite bool_decide_eq_false_2 by lia. reflexivity.
  - rewrite IH by (exact Hs' || lia).
    destruct (extractForward_spec _ _) as [o r].
    rewrite <- app_assoc. reflexivity.
Qed.

Lemma extract_forward_refines s :
  is_line_start mm s ->
  extract_forward mm target_date s =
    extractForward_spec target_date (lines_from mm s).
Proof.
  intros Hs. unfold extract_forward.
  rewrite extract_loop_refines by (exact Hs || lia).
  destruct (extractForward_spec _ _). reflexivity.
Qed.

(** The specification on a run of matching lines. *)
Lemma spec_run run lines rest :
  Forall2 (fun l line => decode_utf8 l = Ok line /\ date_key line = target_date)
    run lines ->
  extractForward_spec target_date (run ++ rest) =
    let '(o, r) := extractForward_spec target_date rest in
    (((fun line => line ++ [10]) <$> lines) ++ o, r).
Proof.
  induction 1 as [|l line run lines [Hd Hk] _ IH]; cbn.
  { destruct (extractForward_spec _ _). reflexivity. }
  rewrite Hd. unfold str_eqb. rewrite bool_decide_eq_true_2 by exact Hk.
  rewrite IH. destruct (extractForward_spec _ rest). reflexivity.
Qed.

End Forward.

(** A turn of the loop that goes on, taken at a line start, has written
    the line and moves to the byte after the end of the line. *)
Lemma extract_body_next mm target_date s out out' next :
  is_line_start mm s ->
  extract_body mm target_date s out = (out', Ok (Some next)) ->
  next = line_end mm s + 1 /\
  exists line, _get_line_at_position mm s = Ok line /\ out' = out ++ [line ++ [10]].
Proof.
  intros Hs. unfold extract_body, mbind, io_bind, lift, write, mret, io_ret.
  destruct (_get_line_at_position mm s) as [line|e] eqn:E; [|discriminate].
  destruct (startswith line target_date); cbn [negb]; [|discriminate].
  rewrite (encode_line _ _ _ E).
  pose proof Hs as [Hb _].
  destruct (line_span_is_line mm s Hb) as [(B & L & _) _].
  rewrite line_start_of_start in B by exact Hs.
  rewrite line_bytes_of_start by exact Hs.
  rewrite length_slice by lia.
  intros [= <- <-]. split; [lia|]. exists line. auto.
Qed.

(** C10: a turn of the forward loop taken at a line start leaves the
    position on the byte after the end of that line: the start of the next
    line when a terminator ends the line, one past the region when the
    region ends it. Taken inside a line, a turn can leave the position
    inside a later line. *)
Theorem advance_alignment :
  (forall mm target_date position out out' next,
     is_line_start mm position -> position < len mm ->
     extract_body mm target_date position out = (out', Ok (Some next)) ->
     next = line_end mm position + 1 /\
     ((is_NL mm (line_end mm position) /\ is_line_start mm next) \/
      (line_end mm position = len mm /\ next = len mm + 1))) /\
  (exists mm target_date position out out' next,
     0 <= position < len mm /\ ~ is_line_start mm position /\
     extract_body mm target_date position out = (out', Ok (Some next)) /\
     next < len mm /\ ~ is_line_start mm next).
Proof.
  split.
  - intros mm target_date position out out' next Hs Hlt Hb.
    destruct (extract_body_next _ _ _ _ _ _ Hs Hb) as [-> _].
    split; [reflexivity|].
    destruct (lines_from_start mm position Hs) as (_ & _ & [[He _]|(HNL & Hs' & _)]).
    + right. split; [exact He|lia].
    + left. split; assumption.
  - exists (bytes_of "2024-01-01 a" ++ [NL] ++ bytes_of "2024-01-01 b" ++ [NL]),
      (lit "2024-01-01"), 5, [], [lit "2024-01-01 a" ++ [10]], 18.
    split; [vm_compute; split; congruence|].
    split; [intros [_ [?|[_ ?]]]; discriminate|].
    split; [vm_compute; reflexivity|].
    split; [reflexivity|].
    intros [_ [?|[_ ?]]]; discriminate.
Qed.

(** A turn at the start of the first of two lines moves to the start of
    the second. *)
Lemma advance_alignment_witness :
  let mm := bytes_of "2024-01-01 a" ++ [NL] ++ bytes_of "2024-01-01 b" ++ [NL] in
  is_line_start mm 0 /\ 0 < len mm /\
  extract_body mm (lit "2024-01-01") 0 [] =
    ([lit "2024-01-01 a" ++ [10]], Ok (Some 13)) /\
  13 = line_end mm 0 + 1 /\ is_line_start mm 13.
Proof.
  intros mm.
  assert (is_line_start mm 0) as Hs by (split; [vm_compute; split; congruence|auto]).
  assert (0 < len mm) as Hl by reflexivity.
  assert (extract_body mm (lit "2024-01-01") 0 [] =
            ([lit "2024-01-01 a" ++ [10]], Ok (Some 13))) as Hb
    by (vm_compute; reflexivity).
  destruct (proj1 advance_alignment mm _ 0 [] _ 13 Hs Hl Hb)
    as [He [[_ Hn]|[Hx _]]]; [auto|vm_compute in Hx; discriminate].
Defined.

(** C4, amended: entered at the start of a line, with a target of ten
    characters, on lines that decode up to the first one whose date key
    differs, the forward extraction writes the run of lines whose key is
    the target, each with its terminator, in file order and nothing else,
    and ends without error at the first line whose key differs or at the
    end of the region. *)
Theorem extract_forward_run mm target_date s run lines rest :
  length target_date = 10%nat ->
  is_line_start mm s ->
  lines_from mm s = run ++ rest ->
  Forall2 (fun l line => decode_utf8 l = Ok line /\ date_key line = target_date)
    run lines ->
  (rest = [] \/
   exists l line rest', rest = l :: rest' /\
     decode_utf8 l = Ok line /\ date_key line <> target_date) ->
  extract_forward mm target_date s = ((fun line => line ++ [10]) <$> lines, Ok ()).
Proof.
  intros Hlen Hs Hls Hrun Hrest.
  rewrite extract_forward_refines, Hls by assumption.
  rewrite (spec_run _ _ _ _ Hrun).
  destruct Hrest as [->|(l & line & rest' & -> & Hd & Hk)]; cbn.
  - rewrite app_nil_r. reflexivity.
  - rewrite Hd. unfold str_eqb. rewrite bool_decide_eq_false_2 by exact Hk.
    rewrite app_nil_r. reflexivity.
Qed.

(** Scenario A of the specification: the two lines of 2024-01-02, from
    the start of the first of them. *)
Lemma extract_forward_run_witness :
  extract_forward scenario_A (lit "2024-01-02") 39 =
    ([lit "2024-01-02 d" ++ [10]; lit "2024-01-02 e" ++ [10]], Ok ()).
Proof.
  apply (extract_forward_run scenario_A (lit "2024-01-02") 39
           [bytes_of "2024-01-02 d"; bytes_of "2024-01-02 e"]
           [lit "2024-01-02 d"; lit "2024-01-02 e"]
           [bytes_of "2024-01-03 f"; []]).
  - reflexivity.
  - split; [vm_compute; split; congruence|right; split; [lia|reflexivity]].
  - vm_compute. reflexivity.
  - repeat constructor.
  - right. exists (bytes_of "2024-01-03 f"), (lit "2024-01-03 f"), [[]].
    split; [reflexivity|]. split; [reflexivity|]. vm_compute. congruence.
Defined.

(** C4 as it stands fails: after a matching line, a line that does not
    decode ends the extraction with an exception, not silently. *)
Lemma extract_forward_error_after_run :
  let mm := bytes_of "2024-01-01 a" ++ [NL; "255"%byte; NL] in
  let target_date := lit "2024-01-01" in
  is_line_start mm 0 /\
  (exists line, _get_line_at_position mm 0 = Ok line /\ date_key line = target_date) /\
  extract_forward mm target_date 0 =
    ([lit "2024-01-01 a" ++ [10]], Raise UnicodeDecodeError) /\
  ~ exists out, extract_forward mm target_date 0 = (out, Ok ()).
Proof.
  intros mm target_date.
  assert (extract_forward mm target_date 0 =
            ([lit "2024-01-01 a" ++ [10]], Raise UnicodeDecodeError)) as E
    by (vm_compute; reflexivity).
  split; [split; [vm_compute; split; congruence|auto]|].
  split; [exists (lit "2024-01-01 a"); split; vm_compute; reflexivity|].
  split; [exact E|].
  intros [out H]. rewrite E in H. discriminate.
Qed.

(** C5: when the forward extraction, entered at a line start, reaches a
    line that does not decode after a run of matching lines, it raises the
    decode error at that line, and the output file holds the lines of the
    run, written before. *)
Theorem extract_forward_decode_failure mm target_date s run lines bad rest fs :
  length target_date = 10%nat ->
  is_line_start mm s ->
  lines_from mm s = run ++ bad :: rest ->
  Forall2 (fun l line => decode_utf8 l = Ok line /\ date_key line = target_date)
    run lines ->
  decode_utf8 bad = Raise UnicodeDecodeError ->
  extract_forward mm target_date s =
    ((fun line => line ++ [10]) <$> lines, Raise UnicodeDecodeError) /\
  extract_from mm target_date s fs =
    (<[lit "output/output_" ++ target_date ++ lit ".txt" :=
         concat ((fun line => line ++ [10]) <$> lines)]> fs,
     [], Raise UnicodeDecodeError).
Proof.
  intros Hlen Hs Hls Hrun Hbad.
  assert (extract_forward mm target_date s =
            ((fun line => line ++ [10]) <$> lines, Raise UnicodeDecodeError)) as E.
  { rewrite extract_forward_refines, Hls by assumption.
    rewrite (spec_run _ _ _ _ Hrun). cbn. rewrite Hbad, app_nil_r. reflexivity. }
  split; [exact E|].
  unfold extract_from. destruct Hs as [Hb _].
  rewrite bool_decide_eq_false_2 by lia. rewrite E. reflexivity.
Qed.

(** Scenario E of the specification: a line that does not decode between
    two matching lines. *)
Lemma extract_forward_decode_failure_witness :
  let mm := bytes_of "2024-01-01 a" ++ [NL; "255"%byte; NL] ++
            bytes_of "2024-01-01 b" ++ [NL] in
  extract_forward mm (lit "2024-01-01") 0 =
    ([lit "2024-01-01 a" ++ [10]], Raise UnicodeDecodeError) /\
  extract_from mm (lit "2024-01-01") 0 ∅ =
    ({[lit "output/output_2024-01-01.txt" := lit "2024-01-01 a" ++ [10]]},
     [], Raise UnicodeDecodeError).
Proof.
  intros mm.
  apply (extract_forward_decode_failure mm (lit "2024-01-01") 0
           [bytes_of "2024-01-01 a"] [lit "2024-01-01 a"] ["255"%byte]
           [bytes_of "2024-01-01 b"; []] ∅).
  - reflexivity.
  - split; [vm_compute; split; congruence|left; reflexivity].
  - vm_compute. reflexivity.
  - repeat constructor.
  - reflexivity.
Defined.

(** ** The whole run *)

(** Run again on the files it left, the extraction from a position leaves
    the same files, prints the same and ends the same way: the output
    file is truncated when opened. *)
Lemma extract_from_again mm target_date position fs :
  extract_from mm target_date position (extract_from mm target_date position fs).1.1
  = extract_from mm target_date position fs.
Proof.
  unfold extract_from.
  destruct (bool_decide (position = -1)); [reflexivity|].
  destruct (extract_forward mm target_date position) as [out r].
  destruct r; cbn [fst]; rewrite insert_insert_eq; reflexivity.
Qed.

(** C8: run a second time on the same region and target date, on the files
    that the first run left, the extraction leaves the same files, prints
    the same and ends the same way. So for lines 122-141 from every
    position that the search can hand over and whatever the output file
    held before, the file being truncated when opened; and so for
    [extract_logs] on every region that can be mapped. *)
Theorem extract_twice_same_output mm target_date :
  (forall position fs,
     extract_from mm target_date position
       (extract_from mm target_date position fs).1.1
     = extract_from mm target_date position fs) /\
  (forall fs,
     mm <> [] ->
     extract_logs mm target_date (extract_logs mm target_date fs).1
     = extract_logs mm target_date fs).
Proof.
  split; [intros position fs; apply extract_from_again|].
  intros fs _. unfold extract_logs.
  destruct (_binary_search_date mm target_date) as [position|e].
  - pose proof (extract_from_again mm target_date position fs) as H.
    destruct (extract_from mm target_date position fs) as [[fs1 printed] r].
    cbn [fst] in H.
    destruct r; cbn [fst]; rewrite H; reflexivity.
  - reflexivity.
Qed.

(** Scenario A and the date of its fourth and fifth line, from the offset
    39 that the loop of lines 85-101 returns, the output file holding
    other text before: after the first run it holds the two lines, and
    after the second run the same two lines, not four. *)
Lemma extract_twice_same_output_witness :
  let target_date := lit "2024-01-02" in
  let output_file := lit "output/output_2024-01-02.txt" in
  let run1 := extract_from scenario_A target_date 39 {[output_file := lit "stale"]} in
  search_loop scenario_A target_date (Z.to_nat (len scenario_A - 0))
    0 (len scenario_A) (-1) = Ok 39 /\
  run1 = ({[output_file := lit "2024-01-02 d" ++ [10] ++ lit "2024-01-02 e" ++ [10]]},
          [ExtractedTo output_file], Ok ()) /\
  extract_from scenario_A target_date 39 run1.1.1 = run1.
Proof.
  intros target_date output_file run1.
  split; [vm_compute; reflexivity|].
  split; [vm_compute; reflexivity|].
  apply (proj1 (extract_twice_same_output scenario_A target_date)).
Defined.

(** ** The counters of the two outer loops *)

(** The search loop ends within its variant [right - left]: more turns
    change nothing. *)
Lemma search_loop_more mm target_date n m left right first_occurrence :
  (Z.to_nat (right - left) <= n)%nat -> (n <= m)%nat ->
  search_loop mm target_date m left right first_occurrence =
  search_loop mm target_date n left right first_occurrence.
Proof.
  revert m left right first_occurrence.
  induction n as [|n IH]; intros m left right first Hn Hm.
  - destruct m; [reflexivity|]. cbn [search_loop].
    rewrite bool_decide_eq_false_2 by lia. reflexivity.
  - destruct m as [|m]; [lia|]. cbn [search_loop].
    destruct (bool_decide_reflect (left < right)) as [Hlt|_]; [|reflexivity].
    set (mid := (left + right) `div` 2).
    assert (left <= mid < right) as Hmid
      by (unfold mid; split; [apply Z.div_le_lower_bound|apply Z.div_lt_upper_bound]; lia).
    destruct (_get_line_at_position mm mid) as [line|e]; [|reflexivity].
    unfold mbind, result_bind, compare_probe.
    destruct (str_eqb _ _); [|destruct (str_ltb _ _)]; cbn [try_except];
      apply IH; lia.
Qed.

(** A turn of the forward loop that goes on moves the position forward. *)
Lemma extract_body_advances mm target_date position out out' next :
  extract_body mm target_date position out = (out', Ok (Some next)) ->
  position < next.
Proof.
  unfold extract_body, mbind, io_bind, lift, write, mret, io_ret.
  destruct (_get_line_at_position mm position) as [line|e]; [|discriminate].
  destruct (startswith line target_date); cbn [negb]; [|discriminate].
  destruct (encode_utf8 line) as [bs|e]; [|discriminate].
  intros [= _ <-]. pose proof (len_nonneg bs). lia.
Qed.

(** The forward loop ends within its variant [len(mm) - position], from
    every position: more turns change nothing. *)
Lemma extract_loop_more mm target_date n m position out :
  (Z.to_nat (len mm - position) <= n)%nat -> (n <= m)%nat ->
  extract_loop mm target_date m position out =
  extract_loop mm target_date n position out.
Proof.
  revert m position out. induction n as [|n IH]; intros m position out Hn Hm.
  - destruct m; [reflexivity|]. cbn [extract_loop].
    rewrite bool_decide_eq_false_2 by lia. reflexivity.
  - destruct m as [|m]; [lia|]. cbn [extract_loop].
    destruct (bool_decide_reflect (position < len mm)) as [Hlt|_]; [|reflexivity].
    unfold mbind, io_bind. fold (@io_bind).
    destruct (extract_body mm target_date position out) as [out' [[next|]|e]] eqn:E;
      try reflexivity.
    apply extract_body_advances in E. apply IH; lia.
Qed.

(** ** The order of [str] *)

Lemma str_ltb_irrefl s : str_ltb s s = false.
Proof.
  induction s as [|x s IH]; cbn; [reflexivity|].
  rewrite Z.ltb_irrefl, Z.eqb_refl. exact IH.
Qed.

Lemma str_ltb_trans a b c :
  str_ltb a b = true -> str_ltb b c = true -> str_ltb a c = true.
Proof.
  revert b c. induction a as [|x a IH]; intros [|y b] [|z c]; cbn; try done.
  destruct (Z.ltb_spec x y), (Z.ltb_spec y z), (Z.ltb_spec x z),
    (Z.eqb_spec x y), (Z.eqb_spec y z), (Z.eqb_spec x z);
    try done; try lia.
  apply IH.
Qed.

Lemma str_trichotomy a b :
  a = b \/ str_ltb a b = true \/ str_ltb b a = true.
Proof.
  revert b. induction a as [|x a IH]; intros [|y b]; cbn; auto.
  destruct (Z.ltb_spec x y), (Z.ltb_spec y x), (Z.eqb_spec x y), (Z.eqb_spec y x);
    auto; try lia.
  subst. destruct (IH b) as [->|[?|?]]; auto.
Qed.

Lemma str_le_lt_trans a b c :
  str_ltb b a = false -> str_ltb b c = true -> str_ltb a c = true.
Proof.
  intros Hle Hlt. destruct (str_trichotomy a b) as [->|[H|H]]; [exact Hlt| |congruence].
  eapply str_ltb_trans; eassumption.
Qed.

Lemma str_lt_le_trans a b c :
  str_ltb a b = true -> str_ltb c b = false -> str_ltb a c = true.
Proof.
  intros Hlt Hle. destruct (str_trichotomy b c) as [<-|[H|H]]; [exact Hlt| |congruence].
  eapply str_ltb_trans; eassumption.
Qed.

(** ** The search loop on a sorted region *)

Section Search.
Variable mm : list byte.
Variable target_date : str.
Hypothesis mm_decodable : decodable mm.
Hypothesis mm_sorted : sorted_by_date mm.

Let below (p : Z) : Prop :=
  forall lp, _get_line_at_position mm p = Ok lp ->
             str_ltb (date_key lp) target_date = true.
Let above (p : Z) : Prop :=
  forall lp, _get_line_at_position mm p = Ok lp ->
             str_ltb target_date (date_key lp) = true.

(** The loop keeps: the lines left of [left] are below the target; no
    match was seen and the lines from [right] on are above the target, or
    [first_occurrence] is [right] and matches. It ends, on the variant
    [right - left], with the first matching offset, or with [-1] when
    no line matches. *)
Lemma search_loop_sorted n left right first_occurrence :
  0 <= left -> left <= right -> right <= len mm ->
  (Z.to_nat (right - left) <= n)%nat ->
  (forall p, 0 <= p < left -> below p) ->
  ((first_occurrence = -1 /\ forall p, right <= p < len mm -> above p) \/
   (first_occurrence = right /\ right < len mm /\ key_at mm right target_date)) ->
  exists r,
    search_loop mm target_date n left right first_occurrence = Ok r /\
    ((r = -1 /\ forall p, 0 <= p < len mm -> ~ key_at mm p target_date) \/
     (0 <= r < len mm /\ key_at mm r target_date /\
      forall p, 0 <= p < r -> below p)).
Proof.
  revert left right first_occurrence.
  assert (forall left right first_occurrence,
    0 <= left -> left = right -> right <= len mm ->
    (forall p, 0 <= p < left -> below p) ->
    ((first_occurrence = -1 /\ forall p, right <= p < len mm -> above p) \/
     (first_occurrence = right /\ right < len mm /\ key_at mm right target_date)) ->
    (first_occurrence = -1 /\ forall p, 0 <= p < len mm -> ~ key_at mm p target_date) \/
    (0 <= first_occurrence < len mm /\ key_at mm first_occurrence target_date /\
     forall p, 0 <= p < first_occurrence -> below p)) as Hexit.
  { intros left right first Hl -> Hr Hbelow [[-> Habove]|(-> & Hlt & Hk)].
    - left. split; [reflexivity|]. intros p Hp (lp & Hg & Hkp).
      destruct (Z.lt_ge_cases p right).
      + specialize (Hbelow p ltac:(lia) lp Hg). rewrite Hkp, str_ltb_irrefl in Hbelow.
        discriminate.
      + specialize (Habove p ltac:(lia) lp Hg). rewrite Hkp, str_ltb_irrefl in Habove.
        discriminate.
    - right. split; [lia|]. split; [exact Hk|exact Hbelow]. }
  induction n as [|n IH]; intros left right first Hl Hlr Hr Hn Hbelow Hfirst.
  { cbn [search_loop]. eexists. split; [reflexivity|].
    apply (Hexit left right); auto. lia. }
  cbn [search_loop].
  destruct (bool_decide_reflect (left < right)) as [Hlt|Hge].
  2:{ eexists. split; [reflexivity|]. apply (Hexit left right); auto. lia. }
  set (mid := (left + right) `div` 2).
  assert (left <= mid < right) as Hmid
    by (unfold mid; split; [apply Z.div_le_lower_bound|apply Z.div_lt_upper_bound]; lia).
  destruct (mm_decodable mid) as [line Hline]; [lia|].
  rewrite Hline. cbn [mbind result_bind]. unfold mbind, result_bind.
  unfold compare_probe, str_eqb.
  destruct (bool_decide_reflect (date_key line = target_date)) as [Heq|Hne].
  - cbn [try_except]. apply IH; try lia; [exact Hbelow|].
    right. split; [reflexivity|]. split; [lia|]. exists line. auto.
  - destruct (str_ltb (date_key line) target_date) eqn:Hcmp; cbn [try_except].
    + apply IH; try lia; [|exact Hfirst].
      intros p Hp lp Hg.
      destruct (Z.lt_ge_cases p left); [exact (Hbelow p ltac:(lia) lp Hg)|].
      apply (str_le_lt_trans _ (date_key line)); [|exact Hcmp].
      apply (mm_sorted p mid lp line); auto; lia.
    + assert (str_ltb target_date (date_key line) = true) as Hgt.
      { destruct (str_trichotomy (date_key line) target_date) as [?|[?|?]];
          [contradiction|congruence|assumption]. }
      apply IH; try lia; [exact Hbelow|].
      destruct Hfirst as [[-> Habove]|(-> & Hrl & lr & Hgr & Hkr)].
      * left. split; [reflexivity|]. intros p Hp lp Hg.
        apply (str_lt_le_trans _ (date_key line)); [exact Hgt|].
        apply (mm_sorted mid p line lp); auto; lia.
      * exfalso. pose proof (mm_sorted mid right line lr) as Hs.
        rewrite Hkr, Hgt in Hs. discriminate Hs; auto; lia.
Qed.

End Search.

Lemma search_loop_whole mm target_date :
  decodable mm -> sorted_by_date mm ->
  exists r,
    search_loop mm target_date (Z.to_nat (len mm - 0)) 0 (len mm) (-1) = Ok r /\
    ((r = -1 /\ forall p, 0 <= p < len mm -> ~ key_at mm p target_date) \/
     (0 <= r < len mm /\ key_at mm r target_date /\
      forall p lp, 0 <= p < r -> _get_line_at_position mm p = Ok lp ->
                   str_ltb (date_key lp) target_date = true)).
Proof.
  intros Hdec Hsorted. pose proof (len_nonneg mm).
  destruct (search_loop_sorted mm target_date Hdec Hsorted
              (Z.to_nat (len mm - 0)) 0 (len mm) (-1)) as (r & Hr & Hres);
    [lia..| |exists r; split; [exact Hr|]].
  - left. split; [reflexivity|]. lia.
  - destruct Hres as [?|(? & ? & Hb)]; [left; assumption|right].
    split; [assumption|]. split; [assumption|].
    intros p lp Hp. exact (Hb p Hp lp).
Qed.

Lemma get_line_same_span mm p q :
  line_span mm p = line_span mm q ->
  _get_line_at_position mm p = _get_line_at_position mm q.
Proof.
  unfold line_span, _get_line_at_position, line_bytes. intros [= -> ->].
  reflexivity.
Qed.

(** Entered with the bounds [0] and [len(mm)], the loop of lines 85-101
    returns, on a sorted region that decodes and holds a matching line,
    the start of the first line whose date key is the target. *)
Lemma search_loop_first_match mm target_date :
  decodable mm -> sorted_by_date mm ->
  (exists p, 0 <= p < len mm /\ key_at mm p target_date) ->
  exists s,
    search_loop mm target_date (Z.to_nat (len mm - 0)) 0 (len mm) (-1) = Ok s /\
    is_line_start mm s /\ s < len mm /\ key_at mm s target_date /\
    forall p, 0 <= p < s -> ~ key_at mm p target_date.
Proof.
  intros Hdec Hsorted (p0 & Hp0 & Hk0).
  destruct (search_loop_whole mm target_date Hdec Hsorted)
    as (r & Hr & [[_ Hnone]|(Hb & Hk & Hbelow)]).
  { exfalso. exact (Hnone p0 Hp0 Hk0). }
  assert (forall p, 0 <= p < r -> ~ key_at mm p target_date) as Hmin.
  { intros p Hp (lp & Hg & Hkp). specialize (Hbelow p lp Hp Hg).
    rewrite Hkp, str_ltb_irrefl in Hbelow. discriminate. }
  exists r. split; [exact Hr|]. split; [|split; [lia|split; [exact Hk|exact Hmin]]].
  split; [lia|].
  destruct (line_span_is_line mm r) as [Hl Hin]; [lia|].
  destruct (decide (line_start mm r = r)) as [Heq|Hne].
  - destruct Hl as (_ & _ & Hs & _). rewrite Heq in Hs. exact Hs.
  - exfalso. pose proof Hl as (B & _). apply (Hmin (r - 1)); [lia|].
    destruct Hk as (l & Hg & Hkl). exists l. split; [|exact Hkl].
    rewrite <- Hg. apply get_line_same_span.
    rewrite (line_span_of_line mm _ _ (r - 1) Hl) by lia.
    rewrite (line_span_of_line mm _ _ r Hl) by lia. reflexivity.
Qed.

(** Entered with the bounds [0] and [len(mm)], the loop returns [-1] on a
    sorted region that decodes and holds no matching line. *)
Lemma search_loop_not_found mm target_date :
  decodable mm -> sorted_by_date mm ->
  (forall p, 0 <= p < len mm -> ~ key_at mm p target_date) ->
  search_loop mm target_date (Z.to_nat (len mm - 0)) 0 (len mm) (-1) = Ok (-1).
Proof.
  intros Hdec Hsorted Hnone.
  destruct (search_loop_whole mm target_date Hdec Hsorted)
    as (r & Hr & [[-> _]|(Hb & Hk & _)]).
  { exact Hr. }
  exfalso. exact (Hnone r Hb Hk).
Qed.

(** A probe whose line does not decode ends the loop with the exception:
    the call of line 89 is not inside the [try]. *)
Lemma search_loop_probe_raises mm target_date n left right first_occurrence e :
  left < right ->
  _get_line_at_position mm ((left + right) `div` 2) = Raise e ->
  search_loop mm target_date (S n) left right first_occurrence = Raise e.
Proof.
  intros Hlt Hg. cbn [search_loop].
  rewrite bool_decide_eq_true_2 by exact Hlt. rewrite Hg. reflexivity.
Qed.

(** Scenario A, the loop alone: the offsets of the first lines of the
    three dates, and no offset for a date before or after them. *)
Example search_loop_scenario_A :
  let go (d : string) := search_loop scenario_A (lit d) (Z.to_nat (len scenario_A - 0))
                0 (len scenario_A) (-1) in
  go "2024-01-01"%string = Ok 0 /\ go "2024-01-02"%string = Ok 39 /\
  go "2024-01-03"%string = Ok 65 /\
  go "2023-12-31"%string = Ok (-1) /\ go "2024-01-04"%string = Ok (-1).
Proof. vm_compute. repeat split. Qed.

(** Scenario B, the empty file, and scenario D, a single matching line
    without terminator: the two loops alone. *)
Example loops_scenarios_B_D :
  search_loop [] (lit "2024-01-01") (Z.to_nat (len (@nil byte) - 0)) 0 0 (-1)
    = Ok (-1) /\
  search_loop (bytes_of "2024-01-01 only") (lit "2024-01-01") 15 0 15 (-1)
    = Ok 0 /\
  extract_forward (bytes_of "2024-01-01 only") (lit "2024-01-01") 0
    = ([lit "2024-01-01 only" ++ [10]], Ok ()).
Proof. vm_compute. repeat split. Qed.

(** C1: [_binary_search_date] returns no offset: on every region and
    target, line 82 unpacks the integer [len(mm)] and raises, as on
    scenario A with a date that three of its lines carry. *)
Theorem binary_search_date_type_error :
  (forall mm target_date, _binary_search_date mm target_date = Raise TypeError) /\
  _binary_search_date scenario_A (lit "2024-01-02") = Raise TypeError /\
  search_loop scenario_A (lit "2024-01-02") (Z.to_nat (len scenario_A - 0))
    0 (len scenario_A) (-1) = Ok 39.
Proof. split; [reflexivity|]. split; reflexivity. Qed.

(** C2: on a sorted region without the target date the search does not
    return [-1] but raises, and [extract_logs] prints the error instead of
    [No logs found]; so on every region. *)
Theorem absent_date_type_error :
  (forall mm target_date fs,
     _binary_search_date mm target_date <> Ok (-1) /\
     extract_logs mm target_date fs =
       (fs, [Processing target_date; Error TypeError])) /\
  _binary_search_date scenario_A (lit "2023-12-31") = Raise TypeError /\
  _binary_search_date scenario_A (lit "2024-01-04") = Raise TypeError.
Proof.
  split; [|split; reflexivity].
  intros mm target_date fs. split; [discriminate|reflexivity].
Qed.

(** C3: a probe on a line that does not decode is not taken as greater
    than the target: the loop of lines 85-101 ends with the decode error,
    and the search itself has raised before any probe. *)
Theorem probe_decode_failure_raises :
  let mm := ["255"%byte; NL] ++ bytes_of "2024-01-01 a" ++ [NL] in
  let target_date := lit "2024-01-01" in
  _get_line_at_position mm ((0 + len mm) `div` 2) = Ok (lit "2024-01-01 a") /\
  _get_line_at_position mm ((0 + 7) `div` 2) = Ok (lit "2024-01-01 a") /\
  _get_line_at_position mm ((0 + 3) `div` 2) = Raise UnicodeDecodeError /\
  search_loop mm target_date (Z.to_nat (len mm - 0)) 0 (len mm) (-1)
    = Raise UnicodeDecodeError /\
  _binary_search_date mm target_date = Raise TypeError.
Proof. vm_compute. repeat split. Qed.

(** * Further properties *)

(** ** The search loop on any region *)

Lemma probe_mid left right :
  left < right -> left <= (left + right) `div` 2 < right.
Proof.
  intros H. split; [apply Z.div_le_lower_bound|apply Z.div_lt_upper_bound]; lia.
Qed.

(** Whatever the region, the loop hands back the offset it was entered
    with or an offset between its bounds whose line has the target as
    date key. *)
Lemma search_loop_sound_gen mm target_date n left right first_occurrence r :
  search_loop mm target_date n left right first_occurrence = Ok r ->
  r = first_occurrence \/ (left <= r < right /\ key_at mm r target_date).
Proof.
  revert left right first_occurrence.
  induction n as [|n IH]; intros left right first; cbn [search_loop].
  { intros [= <-]. auto. }
  destruct (bool_decide_reflect (left < right)) as [Hlt|_]; [|intros [= <-]; auto].
  pose proof (probe_mid left right Hlt) as Hmid.
  set (mid := (left + right) `div` 2) in *.
  destruct (_get_line_at_position mm mid) as [line|e] eqn:Hline; [|discriminate].
  unfold mbind, result_bind, compare_probe, str_eqb.
  destruct (bool_decide_reflect (date_key line = target_date)) as [Heq|Hne];
    [|destruct (str_ltb _ _)]; cbn [try_except]; intros H; apply IH in H.
  - right. destruct H as [->|[Hb Hk]]; [|split; [lia|exact Hk]].
    split; [lia|]. exists line. auto.
  - destruct H as [->|[Hb Hk]]; [auto|right; split; [lia|exact Hk]].
  - destruct H as [->|[Hb Hk]]; [auto|right; split; [lia|exact Hk]].
Qed.

(** X1: entered with the bounds [0] and [len(mm)], on any region, sorted or
    not, the loop of lines 85-101 returns [-1] or an offset of the region
    whose line decodes and has the target as its first ten characters. *)
Theorem search_never_wrong mm target_date n r :
  search_loop mm target_date n 0 (len mm) (-1) = Ok r ->
  r = -1 \/
  (0 <= r < len mm /\
   exists line, _get_line_at_position mm r = Ok line /\ slice line 0 10 = target_date).
Proof.
  intros H. apply search_loop_sound_gen in H as [->|[Hb Hk]]; [auto|right].
  split; [exact Hb|exact Hk].
Qed.

(** An unsorted region: the loop finds the line of 2024-01-01 that stands
    after a later date, and misses that later date, returning [-1]. *)
Lemma search_never_wrong_witness :
  let mm := bytes_of "2024-01-02 a" ++ [NL] ++ bytes_of "2024-01-01 b" ++ [NL] in
  (0 <= 13 < len mm /\
   exists line, _get_line_at_position mm 13 = Ok line /\
                slice line 0 10 = lit "2024-01-01") /\
  search_loop mm (lit "2024-01-02") 26 0 (len mm) (-1) = Ok (-1).
Proof.
  intros mm. split; [|reflexivity].
  destruct (search_never_wrong mm (lit "2024-01-01") 26 13) as [H|H];
    [reflexivity|discriminate H|exact H].
Defined.

(** The loop returns the [first_occurrence] of its last state. *)
Lemma search_loop_state mm target_date n left right first_occurrence :
  search_loop mm target_date n left right first_occurrence =
    match search_state mm target_date n left right first_occurrence with
    | Ok (_, _, first') => Ok first'
    | Raise e => Raise e
    end.
Proof.
  revert left right first_occurrence.
  induction n as [|n IH]; intros left right first;
    cbn [search_loop search_state]; [reflexivity|].
  destruct (bool_decide (left < right)); [|reflexivity].
  unfold search_turn, mbind, result_bind.
  destruct (_get_line_at_position mm _) as [line|e]; [|reflexivity].
  destruct (try_except _ _) as [[left' right'] first']. apply IH.
Qed.

(** A turn keeps the bounds within the old ones and at least halves their
    distance. *)
Lemma search_turn_halves mm target_date left right first_occurrence left' right' first' :
  left < right ->
  search_turn mm target_date left right first_occurrence = Ok (left', right', first') ->
  left <= left' /\ right' <= right /\ 2 * (right' - left') <= right - left.
Proof.
  intros Hlt. unfold search_turn, mbind, result_bind.
  pose proof (probe_mid left right Hlt) as Hmid.
  set (mid := (left + right) `div` 2) in *.
  assert (2 * mid <= left + right < 2 * mid + 2) as Hdiv
    by (unfold mid; pose proof (Z.div_mod (left + right) 2 ltac:(lia));
        pose proof (Z.mod_pos_bound (left + right) 2 ltac:(lia)); lia).
  destruct (_get_line_at_position mm mid) as [line|e]; [|discriminate].
  unfold compare_probe.
  destruct (str_eqb _ _); [|destruct (str_ltb _ _)]; cbn [try_except];
    intros [= <- <- <-]; lia.
Qed.

(** X4: a turn of the loop of lines 85-101 keeps [left] and [right] within
    the old bounds and at least halves [right - left]; so, when
    [right - left < 2 ^ n], the loop is left after at most [n] turns: the
    state after them has its condition [left < right] false, and its
    [first_occurrence] is what the loop returns. *)
Theorem search_loop_logarithmic mm target_date n left right first_occurrence :
  right - left < 2 ^ Z.of_nat n ->
  (forall left' right' first',
     left < right ->
     search_turn mm target_date left right first_occurrence
       = Ok (left', right', first') ->
     left <= left' /\ right' <= right /\ 2 * (right' - left') <= right - left) /\
  match search_state mm target_date n left right first_occurrence with
  | Ok (left', right', first') =>
      ~ left' < right' /\
      search_loop mm target_date n left right first_occurrence = Ok first'
  | Raise e => search_loop mm target_date n left right first_occurrence = Raise e
  end.
Proof.
  intros Hw.
  split; [intros left' right' first' Hlt; apply search_turn_halves; exact Hlt|].
  rewrite search_loop_state.
  destruct (search_state mm target_date n left right first_occurrence)
    as [[[left' right'] first']|e] eqn:Hst; [|reflexivity].
  split; [|reflexivity].
  revert left right first_occurrence Hw Hst.
  induction n as [|n IH]; intros left right first Hw; cbn [search_state].
  { cbn in Hw. intros [= <- <- <-]. lia. }
  destruct (bool_decide_reflect (left < right)) as [Hlt|Hge];
    [|intros [= <- <- <-]; exact Hge].
  destruct (search_turn mm target_date left right first) as [[[l1 r1] f1]|e] eqn:Ht;
    [|discriminate].
  unfold mbind, result_bind.
  destruct (search_turn_halves _ _ _ _ _ _ _ _ Hlt Ht) as (_ & _ & Hh).
  rewrite Nat2Z.inj_succ, Z.pow_succ_r in Hw by lia.
  apply IH. lia.
Qed.

(** Scenario A has 78 bytes: after seven turns the bounds have met at 39,
    the start of its fourth line. *)
Lemma search_loop_logarithmic_witness :
  search_state scenario_A (lit "2024-01-02") 7 0 (len scenario_A) (-1)
    = Ok (39, 39, 39) /\
  ~ 39 < 39 /\
  search_loop scenario_A (lit "2024-01-02") 7 0 (len scenario_A) (-1) = Ok 39.
Proof.
  assert (search_state scenario_A (lit "2024-01-02") 7 0 (len scenario_A) (-1)
            = Ok (39, 39, 39)) as E by (vm_compute; reflexivity).
  split; [exact E|].
  destruct (search_loop_logarithmic scenario_A (lit "2024-01-02") 7
              0 (len scenario_A) (-1)) as [_ H]; [reflexivity|].
  rewrite E in H. exact H.
Defined.

(** X5: the search compares the first ten characters of a line with the
    whole target: an offset is returned only for a target of at most ten
    characters, and for a shorter one only when the line is the target
    itself. *)
Theorem search_target_length mm target_date n r :
  search_loop mm target_date n 0 (len mm) (-1) = Ok r -> r <> -1 ->
  (length target_date <= 10)%nat /\
  exists line, _get_line_at_position mm r = Ok line /\
    ((length target_date < 10)%nat -> line = target_date).
Proof.
  intros H Hr. apply search_loop_sound_gen in H as [->|[_ (line & Hg & Hk)]];
    [contradiction|].
  rewrite date_key_take in Hk. split.
  - rewrite <- Hk, length_take. lia.
  - exists line. split; [exact Hg|]. intros Hlt.
    rewrite <- Hk in Hlt |- *. rewrite length_take in Hlt.
    rewrite take_ge by lia. reflexivity.
Qed.

(** A date written [2024-1-2] is found on the line that is nothing else,
    and not on a line that goes on after it. *)
Lemma search_target_length_witness :
  let mm := bytes_of "2024-1-2" ++ [NL] in
  ((length (lit "2024-1-2") <= 10)%nat /\
   exists line, _get_line_at_position mm 0 = Ok line /\
     ((length (lit "2024-1-2") < 10)%nat -> line = lit "2024-1-2")) /\
  search_loop (bytes_of "2024-1-2 a" ++ [NL]) (lit "2024-1-2") 11 0 11 (-1) = Ok (-1).
Proof.
  intros mm. split; [|reflexivity].
  apply (search_target_length mm (lit "2024-1-2") 9 0); [reflexivity|discriminate].
Defined.

(** ** The search loop on a sorted region *)

Lemma decodableb_spec mm : decodableb mm = true -> decodable mm.
Proof.
  unfold decodableb, decodable. intros H p Hp.
  apply Is_true_true, forallb_True in H. rewrite Forall_forall in H.
  specialize (H p). rewrite elem_of_seqZ in H. specialize (H ltac:(lia)).
  destruct (_get_line_at_position mm p) as [line|e]; [eauto|contradiction].
Qed.

Lemma sorted_by_dateb_spec mm : sorted_by_dateb mm = true -> sorted_by_date mm.
Proof.
  unfold sorted_by_dateb, sorted_by_date. intros H p q lp lq Hp Hpq Hq Hgp Hgq.
  apply Is_true_true, forallb_True in H. rewrite Forall_forall in H.
  specialize (H p). rewrite elem_of_seqZ in H. specialize (H ltac:(lia)).
  apply forallb_True in H. rewrite Forall_forall in H.
  specialize (H q). rewrite elem_of_seqZ in H. specialize (H ltac:(lia)).
  rewrite Hgp, Hgq in H. apply Is_true_true, negb_true_iff in H. exact H.
Qed.

(** X2: entered with the bounds [0] and [len(mm)], on a region that
    decodes, is sorted by date key and holds a line with the target as
    key, the loop of lines 85-101 returns the start offset of the first
    such line: no offset before it has a line with that key. *)
Theorem search_sorted_first_line mm target_date :
  decodable mm -> sorted_by_date mm ->
  (exists p, 0 <= p < len mm /\ key_at mm p target_date) ->
  exists s,
    search_loop mm target_date (Z.to_nat (len mm - 0)) 0 (len mm) (-1) = Ok s /\
    is_line_start mm s /\ s < len mm /\ key_at mm s target_date /\
    forall p, 0 <= p < s -> ~ key_at mm p target_date.
Proof. apply search_loop_first_match. Qed.

(** Scenario A, the date of its fourth and fifth line. *)
Lemma search_sorted_first_line_witness :
  exists s,
    search_loop scenario_A (lit "2024-01-02") (Z.to_nat (len scenario_A - 0))
      0 (len scenario_A) (-1) = Ok s /\
    is_line_start scenario_A s /\ s < len scenario_A /\
    key_at scenario_A s (lit "2024-01-02") /\
    forall p, 0 <= p < s -> ~ key_at scenario_A p (lit "2024-01-02").
Proof.
  apply (search_sorted_first_line scenario_A (lit "2024-01-02")).
  - apply decodableb_spec. vm_compute. reflexivity.
  - apply sorted_by_dateb_spec. vm_compute. reflexivity.
  - exists 45. split; [vm_compute; split; congruence|].
    exists (lit "2024-01-02 d"). split; vm_compute; reflexivity.
Defined.

(** X3: entered with the bounds [0] and [len(mm)], on a region that
    decodes, is sorted by date key and holds no line with the target as
    key, the loop of lines 85-101 returns [-1]. *)
Theorem search_sorted_absent mm target_date :
  decodable mm -> sorted_by_date mm ->
  (forall p, 0 <= p < len mm -> ~ key_at mm p target_date) ->
  search_loop mm target_date (Z.to_nat (len mm - 0)) 0 (len mm) (-1) = Ok (-1).
Proof. apply search_loop_not_found. Qed.

Lemma no_key_check mm target_date :
  forallb (fun p => match _get_line_at_position mm p with
                    | Ok line => negb (str_eqb (date_key line) target_date)
                    | Raise _ => true
                    end) (seqZ 0 (len mm)) = true ->
  forall p, 0 <= p < len mm -> ~ key_at mm p target_date.
Proof.
  intros H p Hp (line & Hg & Hk).
  apply Is_true_true, forallb_True in H. rewrite Forall_forall in H.
  specialize (H p). rewrite elem_of_seqZ in H. specialize (H ltac:(lia)).
  rewrite Hg in H. apply Is_true_true, negb_true_iff in H.
  unfold str_eqb in H. apply bool_decide_eq_false in H. contradiction.
Qed.

(** Scenario A, a date after those of all its lines. *)
Lemma search_sorted_absent_witness :
  search_loop scenario_A (lit "2024-01-04") (Z.to_nat (len scenario_A - 0))
    0 (len scenario_A) (-1) = Ok (-1).
Proof.
  apply (search_sorted_absent scenario_A (lit "2024-01-04")).
  - apply decodableb_spec. vm_compute. reflexivity.
  - apply sorted_by_dateb_spec. vm_compute. reflexivity.
  - apply no_key_check. vm_compute. reflexivity.
Defined.

(** ** The line at a position, once more *)

Lemma slice_beyond {A} (l : list A) a b : len l <= a -> slice l a b = [].
Proof.
  intros Ha. pose proof (len_nonneg l). unfold slice, adjust.
  destruct (Z.ltb_spec a 0); [lia|]. rewrite (Z.min_r a) by lia.
  destruct (Z.ltb_spec b 0).
  - replace (Z.to_nat (Z.max (b + len l) 0 - len l)) with 0%nat by lia.
    apply take_0.
  - replace (Z.to_nat (Z.min b (len l) - len l)) with 0%nat by lia.
    apply take_0.
Qed.

Lemma scan_back_beyond mm k :
  scan_back mm (Z.to_nat (len mm + Z.of_nat k)) (len mm + Z.of_nat k)
  = scan_back mm (Z.to_nat (len mm)) (len mm).
Proof.
  pose proof (len_nonneg mm). induction k as [|k IH].
  { rewrite Z.add_0_r. reflexivity. }
  replace (Z.to_nat (len mm + Z.of_nat (S k)))
    with (S (Z.to_nat (len mm + Z.of_nat k))) by lia.
  cbn [scan_back].
  rewrite bool_decide_eq_true_2 by lia.
  rewrite slice_beyond by lia.
  rewrite bool_decide_eq_true_2 by discriminate. cbn [andb].
  replace (len mm + Z.of_nat (S k) - 1) with (len mm + Z.of_nat k) by lia.
  exact IH.
Qed.

(** X7: a position past the end of the region resolves as the end of the
    region does: the empty slices beyond the end never equal [b'\n'], and
    the backward scan walks down to [len(mm)]. *)
Theorem resolve_past_end mm position :
  len mm <= position ->
  line_span mm position = line_span mm (len mm) /\
  _get_line_at_position mm position = _get_line_at_position mm (len mm).
Proof.
  intros Hp.
  assert (line_start mm position = line_start mm (len mm)) as Hs.
  { unfold line_start. replace position with (len mm + Z.of_nat (Z.to_nat (position - len mm))) by lia.
    apply scan_back_beyond. }
  assert (line_span mm position = line_span mm (len mm)) as Hsp
    by (unfold line_span, line_end; rewrite Hs; reflexivity).
  split; [exact Hsp|]. apply get_line_same_span. exact Hsp.
Qed.

(** Scenario D, a single line without terminator: the position that the
    forward loop leaves, one past the end, would resolve to that line. *)
Lemma resolve_past_end_witness :
  let mm := bytes_of "2024-01-01 only" in
  line_span mm (len mm + 1) = line_span mm (len mm) /\
  _get_line_at_position mm (len mm + 1) = _get_line_at_position mm (len mm).
Proof.
  intros mm. apply (resolve_past_end mm (len mm + 1)). vm_compute. congruence.
Defined.

(** X8: a line that [_get_line_at_position] returns encodes back to the
    bytes of its span: [len(line.encode('utf-8'))] of line 137 is the
    width of the span, terminator left out. *)
Theorem resolved_line_encodes_back mm position line :
  0 <= position <= len mm ->
  _get_line_at_position mm position = Ok line ->
  encode_utf8 line = Ok (slice mm (line_start mm position) (line_end mm position)) /\
  len (slice mm (line_start mm position) (line_end mm position))
    = line_end mm position - line_start mm position.
Proof.
  intros Hp Hg. split; [exact (encode_line mm position line Hg)|].
  destruct (line_span_is_line mm position Hp) as [(B & L & _) _].
  apply length_slice; lia.
Qed.

(** A line with a character of two bytes: seven characters, eight bytes. *)
Lemma resolved_line_encodes_back_witness :
  let mm := bytes_of "caf" ++ ["195"; "169"]%byte ++ bytes_of " ok" ++ [NL] in
  _get_line_at_position mm 3 = Ok (lit "caf" ++ [233] ++ lit " ok") /\
  encode_utf8 (lit "caf" ++ [233] ++ lit " ok") = Ok (slice mm 0 8) /\
  len (slice mm 0 8) = 8 - 0.
Proof.
  intros mm.
  assert (_get_line_at_position mm 3 = Ok (lit "caf" ++ [233] ++ lit " ok")) as Hg
    by reflexivity.
  split; [exact Hg|].
  apply (resolved_line_encodes_back mm 3 _ ltac:(vm_compute; split; congruence) Hg).
Defined.

(** ** A turn of the forward loop at any position *)

(** X9: a turn of the forward loop that goes on, taken at any position of
    the region, has written the whole line of that position, from its
    start, and overshoots the byte after the end of that line by as much
    as the position stood behind the start of the line. *)
Theorem extract_body_overshoot mm target_date position out out' next :
  0 <= position <= len mm ->
  extract_body mm target_date position out = (out', Ok (Some next)) ->
  next - (line_end mm position + 1) = position - line_start mm position /\
  exists line,
    decode_utf8 (slice mm (line_start mm position) (line_end mm position)) = Ok line /\
    startswith line target_date = true /\
    out' = out ++ [line ++ [10]].
Proof.
  intros Hp. unfold extract_body, mbind, io_bind, lift, write, mret, io_ret.
  destruct (_get_line_at_position mm position) as [line|e] eqn:E; [|discriminate].
  destruct (startswith line target_date) eqn:Hsw; cbn [negb]; [|discriminate].
  rewrite (encode_line _ _ _ E).
  destruct (line_span_is_line mm position Hp) as [(B & L & _) _].
  unfold line_bytes. rewrite length_slice by lia.
  intros [= <- <-]. split; [lia|]. exists line. auto.
Qed.

(** Scenario A entered at offset 5: the first line is written whole, and
    the next position is 18, five bytes into the second line. *)
Lemma extract_body_overshoot_witness :
  18 - (line_end scenario_A 5 + 1) = 5 - line_start scenario_A 5 /\
  exists line,
    decode_utf8 (slice scenario_A (line_start scenario_A 5) (line_end scenario_A 5))
      = Ok line /\
    startswith line (lit "2024-01-01") = true /\
    [lit "2024-01-01 a" ++ [10]] = [] ++ [line ++ [10]].
Proof.
  destruct (extract_body_overshoot scenario_A (lit "2024-01-01") 5 []
              [lit "2024-01-01 a" ++ [10]] 18) as [H1 (line & H2 & H3 & H4)].
  - vm_compute. split; congruence.
  - reflexivity.
  - split; [exact H1|]. exists line. auto.
Defined.

(** ** What the forward loop writes *)

(** The ways through one turn of the loop. *)
Lemma extract_body_cases mm target_date position out out' r :
  extract_body mm target_date position out = (out', r) ->
  (out' = out /\ (r = Ok None \/ exists e, r = Raise e)) \/
  (exists line next,
     _get_line_at_position mm position = Ok line /\
     startswith line target_date = true /\
     out' = out ++ [line ++ [10]] /\ r = Ok (Some next) /\ position < next).
Proof.
  intros H. pose proof H as H'.
  unfold extract_body, mbind, io_bind, lift, write, mret, io_ret in H.
  destruct (_get_line_at_position mm position) as [line|e] eqn:E.
  2:{ injection H as <- <-. left. eauto. }
  destruct (startswith line target_date) eqn:Hsw; cbn [negb] in H.
  2:{ injection H as <- <-. left. auto. }
  rewrite (encode_line _ _ _ E) in H. injection H as <- <-.
  right. eexists line, _. repeat split; try reflexivity; try assumption.
  pose proof (len_nonneg (line_bytes mm position)). lia.
Qed.

Lemma extract_loop_done mm target_date n position out :
  len mm <= position -> extract_loop mm target_date n position out = (out, Ok ()).
Proof.
  intros Hp. destruct n; cbn [extract_loop]; [reflexivity|].
  rewrite bool_decide_eq_false_2 by lia. reflexivity.
Qed.

Lemma resolved_line_no_newline mm position line :
  0 <= position <= len mm ->
  _get_line_at_position mm position = Ok line -> 10 ∉ line.
Proof.
  intros Hp Hd Hin. unfold _get_line_at_position, decode_utf8 in Hd.
  destruct (Utf8.decode _) as [s|] eqn:E; [|discriminate].
  injection Hd as ->.
  apply (line_bytes_no_NL mm position Hp). eapply Utf8Facts.decode_newline; eauto.
Qed.

Lemma extract_loop_entries mm target_date n position out out' r :
  0 <= position ->
  extract_loop mm target_date n position out = (out', r) ->
  exists added,
    out' = out ++ added /\
    Forall (fun w => exists q line,
              position <= q < len mm /\ _get_line_at_position mm q = Ok line /\
              startswith line target_date = true /\ (10 ∉ line) /\
              w = line ++ [10]) added.
Proof.
  revert position out. induction n as [|n IH]; intros position out Hp;
    cbn [extract_loop].
  { intros [= <- <-]. exists []. rewrite app_nil_r. auto. }
  destruct (bool_decide_reflect (position < len mm)) as [Hlt|_].
  2:{ intros [= <- <-]. exists []. rewrite app_nil_r. auto. }
  unfold mbind at 1, io_bind at 1.
  destruct (extract_body mm target_date position out) as [out1 r1] eqn:Hb.
  apply extract_body_cases in Hb
    as [[-> [->|[e ->]]]|(line & next & Hg & Hsw & -> & -> & Hnext)].
  - intros [= <- <-]. exists []. rewrite app_nil_r. auto.
  - intros [= <- <-]. exists []. rewrite app_nil_r. auto.
  - intros H. apply IH in H as (added & -> & Hall); [|lia].
    exists ((line ++ [10]) :: added). split; [rewrite <- app_assoc; reflexivity|].
    constructor.
    + exists position, line. repeat split; try assumption; try lia.
      apply (resolved_line_no_newline mm position); [lia|exact Hg].
    + eapply Forall_impl; [exact Hall|]. cbn.
      intros w (q & l & Hq & ?). exists q, l. split; [lia|assumption].
Qed.

(** X10: from any start position of the region and for any target, each
    entry that the forward loop writes is a line of the region at or
    after that position that starts with the target, followed by a
    newline, with no other newline in it. *)
Theorem extract_forward_entries mm target_date position out r :
  0 <= position ->
  extract_forward mm target_date position = (out, r) ->
  Forall (fun w => exists q line,
            position <= q < len mm /\ _get_line_at_position mm q = Ok line /\
            startswith line target_date = true /\ (10 ∉ line) /\
            w = line ++ [10]) out.
Proof.
  intros Hp H. unfold extract_forward in H.
  apply extract_loop_entries in H as (added & -> & Hall); [|exact Hp].
  exact Hall.
Qed.

(** Scenario A entered inside its first line, where the loop then skips
    from line to line out of step. *)
Lemma extract_forward_entries_witness :
  Forall (fun w => exists q line,
            5 <= q < len scenario_A /\ _get_line_at_position scenario_A q = Ok line /\
            startswith line (lit "2024-01-01") = true /\ (10 ∉ line) /\
            w = line ++ [10])
    [lit "2024-01-01 a" ++ [10]; lit "2024-01-01 b" ++ [10];
     lit "2024-01-01 c" ++ [10]].
Proof.
  apply (extract_forward_entries scenario_A (lit "2024-01-01") 5 _ (Ok ())).
  - lia.
  - vm_compute. reflexivity.
Defined.

Lemma encode_app s1 s2 bs1 bs2 :
  Utf8.encode s1 = Some bs1 -> Utf8.encode s2 = Some bs2 ->
  Utf8.encode (s1 ++ s2) = Some (bs1 ++ bs2).
Proof.
  revert bs1. induction s1 as [|c s1 IH]; intros bs1; cbn [Utf8.encode app].
  { intros [= <-] H. exact H. }
  destruct (Utf8.encode_cp c) as [b|]; [|discriminate].
  destruct (Utf8.encode s1) as [bs|] eqn:E; [|discriminate].
  intros [= <-] H2. rewrite (IH bs eq_refl H2), app_assoc. reflexivity.
Qed.

Lemma encode_entry mm position line :
  _get_line_at_position mm position = Ok line ->
  Utf8.encode (line ++ [10]) = Some (line_bytes mm position ++ [NL]).
Proof.
  intros Hg. apply encode_line in Hg. unfold encode_utf8 in Hg.
  destruct (Utf8.encode line) as [bs|] eqn:E; [|discriminate].
  injection Hg as <-. apply encode_app; [exact E|reflexivity].
Qed.

(** Entered at a line start, the loop adds to the output a copy of the
    bytes of the region from there on. *)
Lemma extract_loop_copies mm target_date n s out out' r :
  is_line_start mm s ->
  extract_loop mm target_date n s out = (out', r) ->
  exists added bs,
    out' = out ++ added /\ Utf8.encode (concat added) = Some bs /\
    bs `prefix_of` (drop (Z.to_nat s) mm ++ [NL]).
Proof.
  revert s out. induction n as [|n IH]; intros s out Hs; cbn [extract_loop].
  { intros [= <- <-]. exists [], []. rewrite app_nil_r.
    split; [reflexivity|]. split; [reflexivity|apply prefix_nil]. }
  destruct (bool_decide_reflect (s < len mm)) as [Hlt|_].
  2:{ intros [= <- <-]. exists [], []. rewrite app_nil_r.
      split; [reflexivity|]. split; [reflexivity|apply prefix_nil]. }
  unfold mbind at 1, io_bind at 1.
  destruct (extract_body mm target_date s out) as [out1 r1] eqn:Hb.
  pose proof Hb as Hb'.
  apply extract_body_cases in Hb
    as [[-> [->|[e ->]]]|(line & next & Hg & Hsw & -> & -> & Hnext)].
  - intros [= <- <-]. exists [], []. rewrite app_nil_r.
    split; [reflexivity|]. split; [reflexivity|apply prefix_nil].
  - intros [= <- <-]. exists [], []. rewrite app_nil_r.
    split; [reflexivity|]. split; [reflexivity|apply prefix_nil].
  - destruct (extract_body_next _ _ _ _ _ _ Hs Hb') as [-> _].
    pose proof (encode_entry _ _ _ Hg) as Hent.
    rewrite line_bytes_of_start in Hent by exact Hs.
    pose proof Hs as [Hsb _].
    destruct (lines_from_start mm s Hs) as (B & L & [[He _]|(HNL & Hs' & _)]).
    + rewrite extract_loop_done by lia. intros [= <- <-].
      exists [line ++ [10]], (slice mm s (line_end mm s) ++ [NL]).
      split; [reflexivity|]. cbn [concat]. rewrite app_nil_r.
      split; [exact Hent|].
      rewrite (drop_slice mm s (line_end mm s)) by lia.
      rewrite (drop_ge mm (Z.to_nat (line_end mm s))) by (unfold len in He; lia).
      rewrite app_nil_r. reflexivity.
    + intros H. apply IH in H as (added & bs & -> & Henc & Hpre); [|exact Hs'].
      exists ((line ++ [10]) :: added), ((slice mm s (line_end mm s) ++ [NL]) ++ bs).
      split; [rewrite <- app_assoc; reflexivity|]. cbn [concat].
      split; [apply encode_app; assumption|].
      rewrite (drop_slice mm s (line_end mm s)) by lia.
      destruct HNL as [_ HNL]. rewrite (drop_S _ _ _ HNL).
      rewrite <- !app_assoc. apply prefix_app. cbn [app]. apply prefix_cons.
      replace (S (Z.to_nat (line_end mm s))) with (Z.to_nat (line_end mm s + 1)) by lia.
      exact Hpre.
Qed.

(** X11: entered at a line start, for any target and also when it ends
    with an exception, the forward extraction has written text whose
    UTF-8 bytes are a prefix of the bytes of the region from that start
    on, with one terminator added for a region that has none at its end. *)
Theorem extract_forward_copies_region mm target_date s out r :
  is_line_start mm s ->
  extract_forward mm target_date s = (out, r) ->
  exists bs,
    encode_utf8 (concat out) = Ok bs /\
    bs `prefix_of` (drop (Z.to_nat s) mm ++ [NL]).
Proof.
  intros Hs H. unfold extract_forward in H.
  apply extract_loop_copies in H as (added & bs & -> & Henc & Hpre); [|exact Hs].
  exists bs. unfold encode_utf8. cbn [app]. rewrite Henc. auto.
Qed.

(** Scenario D, a single line without terminator. *)
Lemma extract_forward_copies_region_witness :
  let mm := bytes_of "2024-01-01 only" in
  exists bs,
    encode_utf8 (concat [lit "2024-01-01 only" ++ [10]]) = Ok bs /\
    bs `prefix_of` (drop (Z.to_nat 0) mm ++ [NL]).
Proof.
  intros mm.
  apply (extract_forward_copies_region mm (lit "2024-01-01") 0 _ (Ok ())).
  - split; [vm_compute; split; congruence|left; reflexivity].
  - vm_compute. reflexivity.
Defined.

(** Entered at a line start with a target that is not empty, the loop
    writes the run of lines that start with the target. *)
Lemma extract_loop_prefix_run mm target_date run lines rest :
  target_date <> [] ->
  Forall2 (fun l line => decode_utf8 l = Ok line /\ startswith line target_date = true)
    run lines ->
  (rest = [] \/
   exists l line rest', rest = l :: rest' /\
     decode_utf8 l = Ok line /\ startswith line target_date = false) ->
  forall n s out,
    is_line_start mm s -> (Z.to_nat (len mm - s) <= n)%nat ->
    lines_from mm s = run ++ rest ->
    extract_loop mm target_date n s out =
      (out ++ ((fun line => line ++ [10]) <$> lines), Ok ()).
Proof.
  intros Hne Hrun Hrest.
  induction Hrun as [|l line run lines [Hd Hsw] Hrun' IH]; intros n s out Hs Hn Hls.
  - cbn [fmap list_fmap app] in *. rewrite app_nil_r.
    destruct (Z.lt_ge_cases s (len mm)) as [Hlt|Hge];
      [|apply extract_loop_done; exact Hge].
    destruct n as [|n]; [lia|]. cbn [extract_loop].
    rewrite bool_decide_eq_true_2 by exact Hlt.
    destruct (lines_from_start mm s Hs) as (_ & _ & [[_ Hl]|(_ & _ & Hl)]);
      rewrite Hl in Hls;
      (destruct Hrest as [->|(l & line & rest' & -> & Hd & Hsw)]; [discriminate|]);
      injection Hls as Hl1 _;
      unfold mbind, io_bind, extract_body, lift, _get_line_at_position;
      rewrite Hl1, Hd; unfold mbind, io_bind, mret, io_ret; rewrite Hsw;
      reflexivity.
  - cbn [app] in Hls.
    assert (s < len mm) as Hlt.
    { destruct (Z.lt_ge_cases s (len mm)) as [|Hge]; [assumption|exfalso].
      destruct Hs as [Hb _]. assert (s = len mm) as -> by lia.
      unfold lines_from, len in Hls. rewrite Nat2Z.id, drop_all in Hls.
      injection Hls as <- _. injection Hd as <-.
      destruct target_date; [contradiction|discriminate]. }
    destruct n as [|n]; [lia|]. cbn [extract_loop].
    rewrite bool_decide_eq_true_2 by exact Hlt.
    unfold mbind at 1, io_bind at 1.
    destruct (extract_body mm target_date s out) as [out1 r1] eqn:Hb.
    assert (line_bytes mm s = l) as Hl1
      by (destruct (lines_from_start mm s Hs) as (_ & _ & [[_ Hl]|(_ & _ & Hl)]);
          rewrite Hl in Hls; injection Hls as Hl1 _; exact Hl1).
    assert (_get_line_at_position mm s = Ok line) as Hg
      by (unfold _get_line_at_position; rewrite Hl1; exact Hd).
    pose proof Hb as Hb'.
    apply extract_body_cases in Hb
      as [[_ Hr]|(line' & next & Hg' & _ & -> & -> & _)].
    { exfalso. unfold extract_body, mbind, io_bind, lift, write, mret, io_ret in Hb'.
      rewrite Hg, Hsw in Hb'. cbn [negb] in Hb'.
      rewrite (encode_line _ _ _ Hg) in Hb'. injection Hb' as _ <-.
      destruct Hr as [?|[? ?]]; discriminate. }
    rewrite Hg in Hg'. injection Hg' as <-.
    destruct (extract_body_next _ _ _ _ _ _ Hs Hb') as [-> _].
    cbn [fmap list_fmap]. 
    destruct (lines_from_start mm s Hs) as (B & L & [[He Hl]|(HNL & Hs' & Hl)]);
      rewrite Hl in Hls; injection Hls as _ Htl.
    + symmetry in Htl. apply app_eq_nil in Htl as [-> _].
      inversion Hrun'; subst. rewrite extract_loop_done by lia. reflexivity.
    + rewrite (IH n (line_end mm s + 1) _ Hs' ltac:(lia) Htl).
      rewrite <- app_assoc. reflexivity.
Qed.

(** X12: the forward loop tests [line.startswith(target_date)], not the
    first ten characters: entered at a line start with a target of any
    length but zero, on lines that decode up to the first one that does
    not start with the target, it writes the run of lines that start with
    the target and ends without error. *)
Theorem extract_forward_by_prefix mm target_date s run lines rest :
  target_date <> [] ->
  is_line_start mm s ->
  lines_from mm s = run ++ rest ->
  Forall2 (fun l line => decode_utf8 l = Ok line /\ startswith line target_date = true)
    run lines ->
  (rest = [] \/
   exists l line rest', rest = l :: rest' /\
     decode_utf8 l = Ok line /\ startswith line target_date = false) ->
  extract_forward mm target_date s = ((fun line => line ++ [10]) <$> lines, Ok ()).
Proof.
  intros Hne Hs Hls Hrun Hrest. unfold extract_forward.
  rewrite (extract_loop_prefix_run mm target_date run lines rest Hne Hrun Hrest
             (Z.to_nat (len mm - s)) s [] Hs ltac:(lia) Hls).
  reflexivity.
Qed.

(** Scenario A with the month [2024-01] as target: every line is written. *)
Lemma extract_forward_by_prefix_witness :
  extract_forward scenario_A (lit "2024-01") 0 =
    ((fun line => line ++ [10]) <$>
       [lit "2024-01-01 a"; lit "2024-01-01 b"; lit "2024-01-01 c";
        lit "2024-01-02 d"; lit "2024-01-02 e"; lit "2024-01-03 f"], Ok ()).
Proof.
  apply (extract_forward_by_prefix scenario_A (lit "2024-01") 0
           [bytes_of "2024-01-01 a"; bytes_of "2024-01-01 b"; bytes_of "2024-01-01 c";
            bytes_of "2024-01-02 d"; bytes_of "2024-01-02 e"; bytes_of "2024-01-03 f"]
           _ [[]]).
  - discriminate.
  - split; [vm_compute; split; congruence|left; reflexivity].
  - vm_compute. reflexivity.
  - repeat constructor.
  - right. exists [], [], []. repeat split.
Defined.

(** ** Search and extraction together, on a sorted region *)

Lemma matching_lines_cons target_date l ls :
  matching_lines target_date (l :: ls) =
    match decode_utf8 l with
    | Ok line =>
        if str_eqb (date_key line) target_date
        then line :: matching_lines target_date ls
        else matching_lines target_date ls
    | Raise _ => matching_lines target_date ls
    end.
Proof.
  unfold matching_lines. cbn [omap list_omap].
  destruct (decode_utf8 l) as [line|e]; [|reflexivity].
  destruct (str_eqb _ _); reflexivity.
Qed.

Lemma matching_lines_head_out mm target_date p ls :
  ~ key_at mm p target_date ->
  matching_lines target_date (line_bytes mm p :: ls) = matching_lines target_date ls.
Proof.
  intros Hk. rewrite matching_lines_cons.
  fold (_get_line_at_position mm p).
  destruct (_get_line_at_position mm p) as [line|e] eqn:Hg; [|reflexivity].
  unfold str_eqb. destruct (bool_decide_reflect (date_key line = target_date));
    [|reflexivity].
  exfalso. apply Hk. exists line. auto.
Qed.

Section Complete.
Variable mm : list byte.
Variable target_date : str.
Hypothesis mm_decodable : decodable mm.
Hypothesis mm_sorted : sorted_by_date mm.
Hypothesis target_len : length target_date = 10%nat.

Lemma lines_from_end : lines_from mm (len mm) = [[]].
Proof. unfold lines_from, len. rewrite Nat2Z.id, drop_all. reflexivity. Qed.

Lemma matching_lines_end : matching_lines target_date [[]] = [].
Proof.
  rewrite matching_lines_cons. cbn. unfold str_eqb.
  rewrite bool_decide_eq_false_2; [reflexivity|].
  intros H. rewrite <- H in target_len. discriminate.
Qed.

(** The lines before the first match bring nothing. *)
Lemma matching_lines_skip n a s :
  is_line_start mm a -> is_line_start mm s -> a <= s ->
  (Z.to_nat (s - a) <= n)%nat ->
  (forall p, 0 <= p < s -> ~ key_at mm p target_date) ->
  matching_lines target_date (lines_from mm a)
  = matching_lines target_date (lines_from mm s).
Proof.
  revert a. induction n as [|n IH]; intros a Ha Hs Has Hn Hno.
  { assert (a = s) as -> by lia. reflexivity. }
  destruct (decide (a = s)) as [->|Hne]; [reflexivity|].
  pose proof Ha as [Hab _]. pose proof Hs as [Hsb [?|HNLs]]; [lia|].
  destruct (line_span_is_line mm a Hab) as [Hl _].
  rewrite line_start_of_start in Hl by exact Ha.
  pose proof Hl as (_ & _ & _ & _ & N).
  assert (line_end mm a <= s - 1) as He.
  { destruct (Z.le_gt_cases (line_end mm a) (s - 1)); [assumption|exfalso].
    apply (N (s - 1)); [lia|exact HNLs]. }
  destruct (lines_from_start mm a Ha) as (B & _ & [[? _]|(_ & Ha' & Hls)]); [lia|].
  rewrite Hls, matching_lines_head_out by (apply Hno; lia).
  apply IH; try assumption; lia.
Qed.

(** Lines that all miss the target bring nothing. *)
Lemma matching_lines_none n q :
  is_line_start mm q -> (Z.to_nat (len mm - q) <= n)%nat ->
  (forall p, q <= p < len mm -> ~ key_at mm p target_date) ->
  matching_lines target_date (lines_from mm q) = [].
Proof.
  revert q. induction n as [|n IH]; intros q Hq Hn Hno.
  { pose proof Hq as [Hb _]. assert (q = len mm) as -> by lia.
    rewrite lines_from_end. apply matching_lines_end. }
  pose proof Hq as [Hb _].
  destruct (decide (q = len mm)) as [->|Hne];
    [rewrite lines_from_end; apply matching_lines_end|].
  destruct (lines_from_start mm q Hq) as (B & L & [[_ Hls]|(_ & Hq' & Hls)]);
    rewrite Hls, matching_lines_head_out by (apply Hno; lia).
  - reflexivity.
  - apply IH; [exact Hq'|lia|]. intros p Hp. apply Hno. lia.
Qed.

(** From a line start on which no line is below the target, the run that
    the specification yields is all the lines that match. *)
Lemma spec_yields_all n q :
  is_line_start mm q -> (Z.to_nat (len mm - q) <= n)%nat ->
  (forall p lp, q <= p < len mm -> _get_line_at_position mm p = Ok lp ->
                str_ltb (date_key lp) target_date = false) ->
  extractForward_spec target_date (lines_from mm q) =
    ((fun line => line ++ [10]) <$> matching_lines target_date (lines_from mm q),
     Ok ()).
Proof.
  revert q. induction n as [|n IH]; intros q Hq Hn Hge.
  { pose proof Hq as [Hb _]. assert (q = len mm) as -> by lia.
    rewrite lines_from_end, matching_lines_end.
    apply spec_last_empty. exact target_len. }
  pose proof Hq as [Hb _].
  destruct (decide (q = len mm)) as [->|Hne].
  { rewrite lines_from_end, matching_lines_end.
    apply spec_last_empty. exact target_len. }
  destruct (mm_decodable q) as [line Hg]; [lia|].
  assert (decode_utf8 (line_bytes mm q) = Ok line) as Hd by exact Hg.
  destruct (bool_decide_reflect (date_key line = target_date)) as [Hk|Hk].
  - destruct (lines_from_start mm q Hq) as (B & L & [[_ Hls]|(_ & Hq' & Hls)]);
      rewrite Hls, matching_lines_cons; cbn [extractForward_spec];
      rewrite Hd; unfold str_eqb; rewrite bool_decide_eq_true_2 by exact Hk.
    + reflexivity.
    + rewrite IH; [reflexivity|exact Hq'|lia|].
      intros p lp Hp. apply Hge. lia.
  - assert (str_ltb target_date (date_key line) = true) as Hgt.
    { destruct (str_trichotomy (date_key line) target_date) as [?|[Hlt|?]];
        [contradiction| |assumption].
      rewrite (Hge q line) in Hlt by (lia || exact Hg). discriminate. }
    assert (matching_lines target_date (lines_from mm q) = []) as Hnone.
    { apply (matching_lines_none (S n)); [exact Hq|exact Hn|].
      intros p Hp (lp & Hgp & Hkp).
      pose proof (mm_sorted q p line lp ltac:(lia) ltac:(lia) ltac:(lia) Hg Hgp) as Hs.
      rewrite Hkp, Hgt in Hs. discriminate. }
    rewrite Hnone.
    destruct (lines_from_start mm q Hq) as (B & L & [[_ Hls]|(_ & _ & Hls)]);
      rewrite Hls; cbn [extractForward_spec];
      rewrite Hd; unfold str_eqb; rewrite bool_decide_eq_false_2 by exact Hk;
      reflexivity.
Qed.

Lemma search_then_extract s :
  search_loop mm target_date (Z.to_nat (len mm - 0)) 0 (len mm) (-1) = Ok s ->
  (s = -1 /\ matching_lines target_date (lines_from mm 0) = []) \/
  (0 <= s < len mm /\
   extract_forward mm target_date s =
     ((fun line => line ++ [10]) <$> matching_lines target_date (lines_from mm 0),
      Ok ())).
Proof.
  intros Hsearch. pose proof (len_nonneg mm) as Hlen.
  assert (is_line_start mm 0) as H0 by (split; [lia|auto]).
  destruct (search_loop_whole mm target_date mm_decodable mm_sorted)
    as (r & Hr & [[-> Hnone]|(Hb & Hk & Hbelow)]);
    rewrite Hr in Hsearch; injection Hsearch as <-.
  - left. split; [reflexivity|].
    apply (matching_lines_none (Z.to_nat (len mm - 0))); [exact H0|lia|exact Hnone].
  - right. split; [exact Hb|].
    destruct (search_loop_first_match mm target_date mm_decodable mm_sorted)
      as (s & Hs & Hstart & _ & Hks & Hmin); [exists r; auto|].
    rewrite Hr in Hs. injection Hs as <-.
    rewrite extract_forward_refines by assumption.
    rewrite (spec_yields_all (Z.to_nat (len mm - r))); [|exact Hstart|lia|].
    + rewrite (matching_lines_skip (Z.to_nat (r - 0)) 0 r); auto; lia.
    + intros p lp Hp Hgp. destruct Hks as (lr & Hgr & Hkr).
      rewrite <- Hkr. apply (mm_sorted r p lr lp); auto; lia.
Qed.

End Complete.

(** X15: on a region that decodes and is sorted by date key, with a target
    of ten characters, the position that the loop of lines 85-101 returns
    when entered with the bounds [0] and [len(mm)] makes the forward loop
    write every line of the region with that date key, each once, in file
    order, and nothing else, and end without error; the loop returns [-1]
    only when no line has that key. *)
Theorem search_then_extract_all mm target_date s :
  decodable mm -> sorted_by_date mm -> length target_date = 10%nat ->
  search_loop mm target_date (Z.to_nat (len mm - 0)) 0 (len mm) (-1) = Ok s ->
  (s = -1 /\ matching_lines target_date (lines_from mm 0) = []) \/
  (0 <= s < len mm /\
   extract_forward mm target_date s =
     ((fun line => line ++ [10]) <$> matching_lines target_date (lines_from mm 0),
      Ok ())).
Proof. intros Hd Hs Hl. apply search_then_extract; assumption. Qed.

(** Scenario A and the date of its fourth and fifth line. *)
Lemma search_then_extract_all_witness :
  (39 = -1 /\ matching_lines (lit "2024-01-02") (lines_from scenario_A 0) = []) \/
  (0 <= 39 < len scenario_A /\
   extract_forward scenario_A (lit "2024-01-02") 39 =
     ((fun line => line ++ [10]) <$>
        matching_lines (lit "2024-01-02") (lines_from scenario_A 0), Ok ())).
Proof.
  apply (search_then_extract_all scenario_A (lit "2024-01-02") 39).
  - apply decodableb_spec. vm_compute. reflexivity.
  - apply sorted_by_dateb_spec. vm_compute. reflexivity.
  - reflexivity.
  - vm_compute. reflexivity.
Defined.

(** ** The choice of the log file *)

Lemma path_join_not_empty temp_dir file :
  is_log_name file = true -> path_join temp_dir file <> [].
Proof.
  intros Hlog. assert (file <> []) as Hne by (intros ->; discriminate Hlog).
  unfold path_join. destruct (startswith file (lit "/")); [exact Hne|].
  destruct (_ || _); intros H; apply app_eq_nil in H as [_ H];
    [|apply app_eq_nil in H as [_ H]]; contradiction.
Qed.

Lemma find_log_file_cases temp_dir listing log_file_path :
  (Forall (fun f => is_log_name f = false) listing /\
   find_log_file temp_dir listing log_file_path = log_file_path) \/
  (exists pre file post,
     listing = pre ++ file :: post /\
     Forall (fun f => is_log_name f = false) pre /\
     is_log_name file = true /\
     find_log_file temp_dir listing log_file_path = Some (path_join temp_dir file)).
Proof.
  induction listing as [|f listing IH]; cbn [find_log_file].
  { left. auto. }
  destruct (is_log_name f) eqn:Hf.
  - right. exists [], f, listing. auto.
  - destruct IH as [[Hall He]|(pre & file & post & -> & Hpre & Hfile & He)].
    + left. auto.
    + right. exists (f :: pre), file, post. auto.
Qed.

(** X16: on an extractor that holds no path yet, lines 44-51 choose the
    first entry of the listing, in its order, whose name ends in [.log] or
    [.txt], joined to the directory; line 51 raises exactly when no entry
    has such a name. *)
Theorem select_log_file_first temp_dir listing :
  (exists pre file post,
     listing = pre ++ file :: post /\
     Forall (fun f => is_log_name f = false) pre /\
     is_log_name file = true /\
     select_log_file temp_dir listing None = (Some (path_join temp_dir file), None)) \/
  (Forall (fun f => is_log_name f = false) listing /\
   select_log_file temp_dir listing None =
     (None, Some (lit "No log file found in zip archive"))).
Proof.
  unfold select_log_file.
  destruct (find_log_file_cases temp_dir listing None)
    as [[Hall ->]|(pre & file & post & -> & Hpre & Hfile & ->)].
  - right. auto.
  - left. exists pre, file, post. repeat split; try assumption.
    pose proof (path_join_not_empty temp_dir file Hfile).
    destruct (path_join temp_dir file); [contradiction|reflexivity].
Qed.

(** X17: [self.log_file_path] is never reset: on an extractor that holds
    the path of an earlier download, a listing without a log file raises
    nothing at line 51 and leaves that earlier path in place. *)
Theorem select_log_file_keeps_earlier temp_dir listing earlier :
  earlier <> [] ->
  Forall (fun f => is_log_name f = false) listing ->
  select_log_file temp_dir listing (Some earlier) = (Some earlier, None).
Proof.
  intros Hne Hall. unfold select_log_file.
  assert (find_log_file temp_dir listing (Some earlier) = Some earlier) as ->.
  { induction Hall as [|f listing Hf _ IH]; cbn [find_log_file]; [reflexivity|].
    rewrite Hf. exact IH. }
  destruct earlier; [contradiction|reflexivity].
Qed.

(** A second archive that holds the archive file and a CSV file only. *)
Lemma select_log_file_keeps_earlier_witness :
  select_log_file (lit "/tmp/tmpb") [lit "logs.zip"; lit "data.csv"]
    (Some (lit "/tmp/tmpa/app.log"))
  = (Some (lit "/tmp/tmpa/app.log"), None).
Proof.
  apply (select_log_file_keeps_earlier (lit "/tmp/tmpb")
           [lit "logs.zip"; lit "data.csv"] (lit "/tmp/tmpa/app.log")).
  - discriminate.
  - repeat constructor.
Defined.

(** ** The exception of the search loop *)

Lemma get_line_raise mm position e :
  _get_line_at_position mm position = Raise e -> e = UnicodeDecodeError.
Proof.
  unfold _get_line_at_position, decode_utf8.
  destruct (Utf8.decode _); [discriminate|]. intros [= <-]. reflexivity.
Qed.

(** X6: when the loop of lines 85-101 raises, it raises the decode error
    of a line that it probed at an offset between its bounds. *)
Theorem search_loop_raises_decode_only mm target_date n left right first_occurrence e :
  search_loop mm target_date n left right first_occurrence = Raise e ->
  e = UnicodeDecodeError /\
  exists p, left <= p < right /\ _get_line_at_position mm p = Raise UnicodeDecodeError.
Proof.
  revert left right first_occurrence.
  induction n as [|n IH]; intros left right first; cbn [search_loop]; [discriminate|].
  destruct (bool_decide_reflect (left < right)) as [Hlt|_]; [|discriminate].
  pose proof (probe_mid left right Hlt) as Hmid.
  set (mid := (left + right) `div` 2) in *.
  destruct (_get_line_at_position mm mid) as [line|e'] eqn:Hline.
  - unfold mbind, result_bind, compare_probe.
    destruct (str_eqb _ _); [|destruct (str_ltb _ _)]; cbn [try_except];
      intros H; apply IH in H as [-> (p & Hp & Hg)];
      (split; [reflexivity|]); exists p; (split; [lia|exact Hg]).
  - intros [= <-]. pose proof (get_line_raise _ _ _ Hline) as ->.
    split; [reflexivity|]. exists mid. auto.
Qed.

(** A first line that does not decode, reached by the third probe. *)
Lemma search_loop_raises_decode_only_witness :
  let mm := ["255"%byte; NL] ++ bytes_of "2024-01-01 a" ++ [NL] in
  UnicodeDecodeError = UnicodeDecodeError /\
  exists p, 0 <= p < len mm /\ _get_line_at_position mm p = Raise UnicodeDecodeError.
Proof.
  intros mm.
  apply (search_loop_raises_decode_only mm (lit "2024-01-01") 15 0 (len mm) (-1)).
  vm_compute. reflexivity.
Defined.
